(** * Orchestrator-Base: the video editing agent and its mock tools

  A shallow embedding of [src/tools/tools.py] and of the parts of
  [src/agents/video_agent.py] that carry the agent's own logic: tool
  registration, the system prompt, the continue/end edge, request
  processing and the per-thread conversation history; then of the rest of
  the agent (the node that calls the model, the constructor, clearing the
  history), of the console program [main.py] and of [tests/test_agent.py].

  Python values are modelled as follows: [str] is [string] (the bytes of the
  UTF-8 encoding), [int] is [Z], [float] is the binary64 [float], a [dict]
  with string keys is a [gmap string _], [None] is the [None] of [option]. *)

From Stdlib Require Import ZArith Floats Ascii.
From stdpp Require Import gmap strings list finite pretty.

(** ** Python strings *)

Module PyStr.

(** [c in chars] for a one-character [c]. *)
Fixpoint in_chars (c : ascii) (chars : string) : bool :=
  match chars with
  | EmptyString => false
  | String d chars' => if decide (c = d) then true else in_chars c chars'
  end.

(** [s.rstrip(chars)]: the longest prefix of [s] whose last character is not
    in [chars].  The only use in the sources strips the ASCII character '/',
    which never occurs inside a multi-byte UTF-8 sequence, so working on
    bytes agrees with Python's code points. *)
Fixpoint rstrip (s chars : string) : string :=
  match s with
  | EmptyString => EmptyString
  | String c s' =>
      match rstrip s' chars with
      | EmptyString => if in_chars c chars then EmptyString else String c EmptyString
      | r => String c r
      end
  end.

(** [needle] starts [hay]. *)
Fixpoint startswith (hay needle : string) : bool :=
  match needle, hay with
  | EmptyString, _ => true
  | String _ _, EmptyString => false
  | String c needle', String d hay' =>
      if decide (c = d) then startswith hay' needle' else false
  end.

(** [hay.endswith(needle)]: some suffix of [hay] is [needle]. *)
Fixpoint endswith (hay needle : string) : bool :=
  if decide (hay = needle) then true
  else match hay with
       | EmptyString => false
       | String _ hay' => endswith hay' needle
       end.

(** [hay.find(needle)]: the first index at which [needle] occurs. *)
Fixpoint find (hay needle : string) : option nat :=
  if startswith hay needle then Some 0
  else match hay with
       | EmptyString => None
       | String _ hay' => S <$> find hay' needle
       end.

(** [needle in hay]. *)
Definition contains (hay needle : string) : bool :=
  bool_decide (is_Some (find hay needle)).

(** [s[:n]] and [s[n:]]. *)
Fixpoint take (n : nat) (s : string) : string :=
  match n, s with
  | S n', String c s' => String c (take n' s')
  | _, _ => EmptyString
  end.

Fixpoint drop (n : nat) (s : string) : string :=
  match n, s with
  | S n', String _ s' => drop n' s'
  | _, _ => s
  end.

(** [c * n] for a one-character [c]. *)
Fixpoint replicate (n : nat) (c : ascii) : string :=
  match n with
  | 0 => EmptyString
  | S n' => String c (replicate n' c)
  end.

End PyStr.

(** ** [src/tools/tools.py] *)

Module Tools.

(** The values the tools put in their result dicts: a [str] or a list of
    [str]. *)
Inductive pyval :=
| PStr (s : string)
| PList (l : list string).

#[global] Instance pyval_eq_dec : EqDecision pyval.
Proof. solve_decision. Defined.

Abbreviation dict := (gmap string pyval).

Definition trim_video (video_s3_uri : string) (start_time end_time : float) : dict :=
  {[ "message" := PStr "Video trimmed successfully";
     "media" := PStr "s3://mock-bucket/output/trimmed_video.mp4" ]}.

Definition split_video (video_s3_uri : string) (split_time : float) : dict :=
  {[ "message" := PStr "Video split successfully";
     "media" := PList [ "s3://mock-bucket/output/split_part1.mp4";
                        "s3://mock-bucket/output/split_part2.mp4" ] ]}.

Definition merge_clips (clip1_s3_uri clip2_s3_uri : string) : dict :=
  {[ "message" := PStr "Clips merged successfully";
     "media" := PStr "s3://mock-bucket/output/merged_video.mp4" ]}.

Definition crop_frame (video_s3_uri : string) (x y width height : Z) : dict :=
  {[ "message" := PStr "Video cropped successfully";
     "media" := PStr "s3://mock-bucket/output/cropped_video.mp4" ]}.

Definition resize_video (video_s3_uri : string) (target_width target_height : Z) : dict :=
  {[ "message" := PStr "Video resized successfully";
     "media" := PStr "s3://mock-bucket/output/resized_video.mp4" ]}.

Definition change_resolution (video_s3_uri : string) (width height : Z) : dict :=
  {[ "message" := PStr "Video resolution changed successfully";
     "media" := PStr "s3://mock-bucket/output/resolution_changed_video.mp4" ]}.

Definition adjust_frame_rate (video_s3_uri : string) (target_fps : Z) : dict :=
  {[ "message" := PStr "Frame rate adjusted successfully";
     "media" := PStr "s3://mock-bucket/output/frame_rate_adjusted_video.mp4" ]}.

(** [brightness], [contrast] and [saturation] default to 1.0 when the caller
    leaves them out. *)
Definition color_correct (video_s3_uri : string) (brightness contrast saturation : float) : dict :=
  {[ "message" := PStr "Color correction applied successfully";
     "media" := PStr "s3://mock-bucket/output/color_corrected_video.mp4" ]}.

Definition add_transition (clip1_s3_uri clip2_s3_uri transition_type : string)
    (duration : float) : dict :=
  {[ "message" := PStr "Transition added successfully";
     "media" := PStr "s3://mock-bucket/output/transition_video.mp4" ]}.

Definition add_overlay (video_s3_uri overlay_image_s3_uri : string) (x y : Z) : dict :=
  {[ "message" := PStr "Overlay added successfully";
     "media" := PStr "s3://mock-bucket/output/overlay_video.mp4" ]}.

Definition add_subtitles (video_s3_uri subtitles_s3_uri : string) : dict :=
  {[ "message" := PStr "Subtitles added successfully";
     "media" := PStr "s3://mock-bucket/output/subtitled_video.mp4" ]}.

Definition add_captions (video_s3_uri text : string) (start_time end_time : float)
    (x y : Z) : dict :=
  {[ "message" := PStr "Captions added successfully";
     "media" := PStr "s3://mock-bucket/output/captioned_video.mp4" ]}.

(** [start_time] defaults to 0.0. *)
Definition add_soundtrack (video_s3_uri audio_s3_uri : string) (start_time : float) : dict :=
  {[ "message" := PStr "Soundtrack added successfully";
     "media" := PStr "s3://mock-bucket/output/soundtrack_video.mp4" ]}.

Definition adjust_volume (video_s3_uri : string) (volume_factor : float) : dict :=
  {[ "message" := PStr "Volume adjusted successfully";
     "media" := PStr "s3://mock-bucket/output/volume_adjusted_video.mp4" ]}.

Definition remove_background_noise (audio_s3_uri : string) : dict :=
  {[ "message" := PStr "Background noise removed successfully";
     "media" := PStr "s3://mock-bucket/output/cleaned_audio.mp3" ]}.

Definition generate_thumbnail (video_s3_uri : string) (timestamp : float) : dict :=
  {[ "message" := PStr "Thumbnail generated successfully";
     "media" := PStr "s3://mock-bucket/output/thumbnail.png" ]}.

Definition add_intro (video_s3_uri intro_clip_s3_uri : string) : dict :=
  {[ "message" := PStr "Intro added successfully";
     "media" := PStr "s3://mock-bucket/output/intro_added_video.mp4" ]}.

Definition add_outro (video_s3_uri outro_clip_s3_uri : string) : dict :=
  {[ "message" := PStr "Outro added successfully";
     "media" := PStr "s3://mock-bucket/output/outro_added_video.mp4" ]}.

Definition export_video (video_s3_uri output_format output_s3_uri : string) : dict :=
  {[ "message" := PStr "Video exported successfully";
     "media" := PStr (PyStr.rstrip output_s3_uri "/" +:+ "/exported_video." +:+ output_format) ]}.

Definition change_format (video_s3_uri output_format : string) : dict :=
  {[ "message" := PStr "Video format changed successfully";
     "media" := PStr ("s3://mock-bucket/output/converted_video." +:+ output_format) ]}.

(** The module's functions, in the order of their definitions. *)
Inductive tool_function :=
| Trim_video | Split_video | Merge_clips | Crop_frame | Resize_video
| Change_resolution | Adjust_frame_rate | Color_correct | Add_transition
| Add_overlay | Add_subtitles | Add_captions | Add_soundtrack | Adjust_volume
| Remove_background_noise | Generate_thumbnail | Add_intro | Add_outro
| Export_video | Change_format.

#[global] Instance tool_function_eq_dec : EqDecision tool_function.
Proof. solve_decision. Defined.

(** [func.__name__]. *)
Definition __name__ (f : tool_function) : string :=
  match f with
  | Trim_video => "trim_video"
  | Split_video => "split_video"
  | Merge_clips => "merge_clips"
  | Crop_frame => "crop_frame"
  | Resize_video => "resize_video"
  | Change_resolution => "change_resolution"
  | Adjust_frame_rate => "adjust_frame_rate"
  | Color_correct => "color_correct"
  | Add_transition => "add_transition"
  | Add_overlay => "add_overlay"
  | Add_subtitles => "add_subtitles"
  | Add_captions => "add_captions"
  | Add_soundtrack => "add_soundtrack"
  | Adjust_volume => "adjust_volume"
  | Remove_background_noise => "remove_background_noise"
  | Generate_thumbnail => "generate_thumbnail"
  | Add_intro => "add_intro"
  | Add_outro => "add_outro"
  | Export_video => "export_video"
  | Change_format => "change_format"
  end.

(** The positional arguments of each function, by its annotated signature. *)
Definition args_of (f : tool_function) : Type :=
  match f with
  | Trim_video => string * float * float
  | Split_video => string * float
  | Merge_clips => string * string
  | Crop_frame => string * Z * Z * Z * Z
  | Resize_video => string * Z * Z
  | Change_resolution => string * Z * Z
  | Adjust_frame_rate => string * Z
  | Color_correct => string * float * float * float
  | Add_transition => string * string * string * float
  | Add_overlay => string * string * Z * Z
  | Add_subtitles => string * string
  | Add_captions => string * string * float * float * Z * Z
  | Add_soundtrack => string * string * float
  | Adjust_volume => string * float
  | Remove_background_noise => string
  | Generate_thumbnail => string * float
  | Add_intro => string * string
  | Add_outro => string * string
  | Export_video => string * string * string
  | Change_format => string * string
  end%type.

(** Calling [f] on its arguments. *)
Definition call (f : tool_function) : args_of f → dict :=
  match f with
  | Trim_video => λ '(v, s, e), trim_video v s e
  | Split_video => λ '(v, t), split_video v t
  | Merge_clips => λ '(c1, c2), merge_clips c1 c2
  | Crop_frame => λ '(v, x, y, w, h), crop_frame v x y w h
  | Resize_video => λ '(v, w, h), resize_video v w h
  | Change_resolution => λ '(v, w, h), change_resolution v w h
  | Adjust_frame_rate => λ '(v, fps), adjust_frame_rate v fps
  | Color_correct => λ '(v, b, c, s), color_correct v b c s
  | Add_transition => λ '(c1, c2, t, d), add_transition c1 c2 t d
  | Add_overlay => λ '(v, o, x, y), add_overlay v o x y
  | Add_subtitles => λ '(v, s), add_subtitles v s
  | Add_captions => λ '(v, t, s, e, x, y), add_captions v t s e x y
  | Add_soundtrack => λ '(v, a, s), add_soundtrack v a s
  | Adjust_volume => λ '(v, k), adjust_volume v k
  | Remove_background_noise => λ a, remove_background_noise a
  | Generate_thumbnail => λ '(v, t), generate_thumbnail v t
  | Add_intro => λ '(v, i), add_intro v i
  | Add_outro => λ '(v, o), add_outro v o
  | Export_video => λ '(v, fmt, out), export_video v fmt out
  | Change_format => λ '(v, fmt), change_format v fmt
  end.

End Tools.

(** ** Exceptions and external state *)

Module Py.

(** An exception, by the text [str(e)] gives for it.  Only instances of
    [Exception] are modelled; [KeyboardInterrupt] and [SystemExit], which an
    [except Exception] clause lets through, are signals from outside the
    program. *)
Definition exc := string.

Section Monad.
Context {W : Type}.

(** A computation over an external state [W] that returns or raises. *)
Definition M (A : Type) : Type := W → (exc + A) * W.

Definition ret {A} (a : A) : M A := λ w, (inr a, w).

Definition raise {A} (e : exc) : M A := λ w, (inl e, w).

Definition bind {A B} (m : M A) (k : A → M B) : M B :=
  λ w, match m w with
       | (inr a, w') => k a w'
       | (inl e, w') => (inl e, w')
       end.

(** [try: body / except Exception as e: handler(e)]. *)
Definition try_except {A} (body : M A) (handler : exc → M A) : M A :=
  λ w, match body w with
       | (inr a, w') => (inr a, w')
       | (inl e, w') => handler e w'
       end.

Definition get : M W := λ w, (inr w, w).

Definition modify (f : W → W) : M unit := λ w, (inr (), f w).

(** Lifting a result that was computed outside the monad. *)
Definition lift {A} (r : exc + A) : M A := λ w, (r, w).

End Monad.

Arguments M : clear implicits.

(** stdpp's monad notations: [x ← m; k] and [m ;; k]. *)
#[global] Instance M_ret {W} : MRet (M W) := λ A, ret.
#[global] Instance M_bind {W} : MBind (M W) := λ A B k m, bind m k.

End Py.

(** ** [src/agents/video_agent.py] *)

Module Agent.
Import Tools Py.

(** *** Messages ([langchain_core.messages]) *)

(** The scalar JSON values a tool call carries as arguments. *)
Inductive json :=
| JNull
| JBool (b : bool)
| JInt (n : Z)
| JFloat (x : float)
| JStr (s : string).

(** A tool call requested by the model: the dict with keys [name], [args]
    and [id]. *)
Record ToolCall := { tc_name : string; tc_args : gmap string json; tc_id : string }.

(** The message classes the agent distinguishes with [isinstance].  The
    [tool_calls] attribute of an [AIMessage] is optional, as the sources guard
    every access with [hasattr]. *)
Inductive BaseMessage :=
| HumanMessage (content : string)
| AIMessage (content : string) (tool_calls : option (list ToolCall))
| SystemMessage (content : string)
| ToolMessage (content : string) (tool_call_id : string).

(** [msg.content]. *)
Definition content (msg : BaseMessage) : string :=
  match msg with
  | HumanMessage c | AIMessage c _ | SystemMessage c | ToolMessage c _ => c
  end.

(** [isinstance(msg, AIMessage)] and [isinstance(msg, SystemMessage)]. *)
Definition is_AIMessage (msg : BaseMessage) : bool :=
  match msg with AIMessage _ _ => true | _ => false end.

Definition is_SystemMessage (msg : BaseMessage) : bool :=
  match msg with SystemMessage _ => true | _ => false end.

(** [hasattr(msg, 'tool_calls')] and [msg.tool_calls]. *)
Definition hasattr_tool_calls (msg : BaseMessage) : bool :=
  match msg with AIMessage _ (Some _) => true | _ => false end.

Definition get_tool_calls (msg : BaseMessage) : list ToolCall :=
  match msg with AIMessage _ (Some tcs) => tcs | _ => [] end.

(** Truth value of a [str] and of a list: non-empty. *)
Definition truthy_str (s : string) : bool :=
  match s with EmptyString => false | String _ _ => true end.

Definition truthy_list {A} (l : list A) : bool :=
  match l with [] => false | _ :: _ => true end.

(** *** [AgentState]

    A [TypedDict], at run time a plain dict: [messages = None] stands for a
    dict without the key ["messages"], [current_video_uri = None] for a
    missing key or the value [None], which [state.get] does not tell apart. *)
Record AgentState := {
  messages : option (list BaseMessage);
  current_video_uri : option string
}.

(** *** [_register_tools] *)

(** Modelled from the spec: the tool objects of the framework, "a callable
    exposed to the LLM with a name". *)
Record StructuredTool := { name : string; func : tool_function }.

(** Modelled from the spec: [langchain_core.tools.tool], the framework's
    wrapper; applied to a bare function it names the tool after it. *)
Definition tool (f : tool_function) : StructuredTool :=
  {| name := __name__ f; func := f |}.

Definition tool_functions : list tool_function :=
  [ Trim_video; Split_video; Merge_clips; Crop_frame; Resize_video;
    Change_resolution; Adjust_frame_rate; Color_correct; Add_transition;
    Add_overlay; Add_subtitles; Add_captions; Add_soundtrack; Adjust_volume;
    Remove_background_noise; Generate_thumbnail; Add_intro; Add_outro;
    Export_video; Change_format ].

(** The loop [for func in tool_functions: registered_tools.append(tool(func))]. *)
Definition _register_tools : list StructuredTool :=
  foldl (λ registered_tools func, registered_tools ++ [tool func]) [] tool_functions.

(** *** [_create_system_message] *)

(** The text of the prompt before and after the interpolated [{video_uri}]. *)
Definition system_prompt_head : string :=
"
You are a professional video editing assistant. You can help users edit videos by calling various video editing tools.

CURRENT VIDEO URI: ".

Definition system_prompt_tail : string :=
"

Available tools:
- trim_video: Trim video between start and end times
- split_video: Split video into two clips at a specific time
- merge_clips: Merge two video clips sequentially
- crop_frame: Crop video frame to specific region
- resize_video: Resize video to target dimensions
- change_resolution: Change video resolution
- adjust_frame_rate: Adjust video frame rate
- color_correct: Apply color correction (brightness, contrast, saturation)
- add_transition: Add transition effects between clips
- add_overlay: Overlay image on video
- add_subtitles: Add subtitle file to video
- add_captions: Add custom text captions
- add_soundtrack: Add audio soundtrack
- adjust_volume: Adjust video audio volume
- remove_background_noise: Remove noise from audio
- generate_thumbnail: Generate thumbnail from video
- add_intro: Add intro clip before main video
- add_outro: Add outro clip after main video
- export_video: Export video to specific format
- change_format: Change video file format

When a user provides a video editing request:
1. Analyze what they want to do
2. Use the CURRENT VIDEO URI provided above for all tool calls
3. Determine which tools to use
4. Call the appropriate tools with correct parameters (including the video URI)
5. If multiple operations are needed, call them in sequence
6. Provide clear feedback about what was done

IMPORTANT: Always use the CURRENT VIDEO URI provided above when calling tools. If no video URI is provided, ask the user to provide one.

Always ask for clarification if the request is ambiguous or missing required parameters.
".

Definition _create_system_message (video_uri : string) : BaseMessage :=
  SystemMessage (system_prompt_head +:+ video_uri +:+ system_prompt_tail).

(** *** [_should_continue] *)

Definition _should_continue (state : AgentState) : string :=
  let messages := default [] (messages state) in
  if negb (truthy_list messages) then "end"
  else match last messages with
       | None => "end"
       | Some last_message =>
           if is_AIMessage last_message && hasattr_tool_calls last_message
              && truthy_list (get_tool_calls last_message)
           then "continue"
           else "end"
       end.

(** *** The external collaborators *)

(** Modelled from the spec: the framework's checkpointer [MemorySaver], "a
    key-value store keyed by thread id", which keeps per thread the state
    values of the last checkpoint.  Next to it the world holds the number of
    calls made so far to the hosted model and to the tool node, which tells
    apart two calls with equal arguments. *)
Record World := {
  memory : gmap string AgentState;
  clock : nat
}.

Definition set_memory (f : gmap string AgentState → gmap string AgentState) (w : World) : World :=
  {| memory := f (memory w); clock := clock w |}.

Definition advance_clock (w : World) : World :=
  {| memory := memory w; clock := S (clock w) |}.

(** The nodes of the graph and the edge map given to
    [add_conditional_edges]. *)
Inductive node := agent | tools | END.

Definition conditional_edges : gmap string node :=
  {[ "continue" := tools; "end" := END ]}.

(** Modelled from the spec: the framework's reducer [add_messages] that
    [AgentState] attaches to its [messages].  Every message built here comes
    without an id, so the framework gives it a fresh one and appends it. *)
Definition add_messages (left right : list BaseMessage) : list BaseMessage :=
  left ++ right.

(** Modelled from the spec: the framework merging a node's update
    [{"messages": update}] into the state, through the reducer. *)
Definition apply_update (state : AgentState) (update : list BaseMessage) : AgentState :=
  {| messages := Some (add_messages (default [] (messages state)) update);
     current_video_uri := current_video_uri state |}.

Section Graph.

(** [self.llm_with_tools.invoke]: the answer of the hosted model to the
    [n]-th external call, the content and tool calls of an [AIMessage], or an
    exception. *)
Variable llm_with_tools : nat → list BaseMessage → exc + (string * option (list ToolCall)).

(** [self.tool_node]: the messages the framework's [ToolNode] adds for the
    tool calls of the last message, or an exception. *)
Variable tool_node : nat → AgentState → exc + list BaseMessage.

(** The framework's bound on the number of steps of one run and the error
    it raises beyond it. *)
Variable recursion_limit : nat.
Variable GraphRecursionError : exc.

(** One external call: read the clock and advance it. *)
Definition tick : M World nat :=
  w ← get; modify advance_clock;; mret (clock w).

Definition llm_invoke (messages_for_llm : list BaseMessage) : M World BaseMessage :=
  n ← tick;
  r ← lift (llm_with_tools n messages_for_llm);
  mret (AIMessage r.1 r.2).

Definition tool_node_invoke (state : AgentState) : M World (list BaseMessage) :=
  n ← tick; lift (tool_node n state).

(** *** [_call_agent]

    The result [{"messages": [response]}] is given by its list. *)
Definition _call_agent (state : AgentState) : M World (list BaseMessage) :=
  let current_video_uri :=
    match current_video_uri state with
    | Some uri => if truthy_str uri then uri else "No video URI provided"
    | None => "No video URI provided"
    end in
  let system_message := _create_system_message current_video_uri in
  state_messages ← match messages state with
                   | Some l => mret l
                   | None => raise "'messages'"
                   end;
  let messages_for_llm :=
    [system_message] ++ filter (λ msg, is_SystemMessage msg = false) state_messages in
  response ← try_except (llm_invoke messages_for_llm) (λ e, raise e);
  mret [response].

(** *** The compiled graph

    The state graph execution with the checkpointer attached belongs to the
    framework.  A run starts at the entry point, merges each node's update
    into the state, saves the state under the thread id after every step and
    follows the edges until [END]. *)

(** Modelled from the spec: the checkpointer saving the state of a thread. *)
Definition put_checkpoint (thread_id : string) (state : AgentState) : M World unit :=
  modify (set_memory (insert thread_id state)).

(** Modelled from the spec: the framework's execution of the graph built by
    [_create_graph], from node [n] on: [agent] calls [_call_agent] and leaves
    by the conditional edge on [_should_continue], [tools] calls the tool node
    and goes back to [agent]; [fuel] is what remains of the recursion
    limit. *)
Fixpoint run_from (fuel : nat) (n : node) (thread_id : string) (state : AgentState)
    : M World AgentState :=
  match n, fuel with
  | END, _ => mret state
  | _, 0 => raise GraphRecursionError
  | agent, S fuel' =>
      update ← _call_agent state;
      let state' := apply_update state update in
      put_checkpoint thread_id state';;
      match conditional_edges !! _should_continue state' with
      | Some next => run_from fuel' next thread_id state'
      | None => raise ("'" +:+ _should_continue state' +:+ "'")
      end
  | tools, S fuel' =>
      update ← tool_node_invoke state;
      let state' := apply_update state update in
      put_checkpoint thread_id state';;
      run_from fuel' agent thread_id state'
  end.

(** Modelled from the spec: [self.graph.invoke(input, config)] with [config]
    naming [thread_id]: the input is merged into the thread's saved state,
    and the run starts at the entry point [agent]. *)
Definition graph_invoke (input : AgentState) (thread_id : string) : M World AgentState :=
  w ← get;
  let saved := default [] (memory w !! thread_id ≫= messages) in
  let state := {| messages := Some (add_messages saved (default [] (messages input)));
                  current_video_uri := current_video_uri input |} in
  put_checkpoint thread_id state;;
  run_from recursion_limit agent thread_id state.

(** Modelled from the spec: [self.graph.get_state(config).values], [None]
    for a thread without a checkpoint (where the framework gives the empty
    dict). *)
Definition graph_get_state (thread_id : string) : M World (option AgentState) :=
  w ← get; mret (memory w !! thread_id).

(** *** [process_request] *)

(** The dict [process_request] returns. *)
Record Response := {
  final_output : string;
  response_messages : list BaseMessage;
  response_video_uri : option string;
  success : bool
}.

(** The loop over [reversed(final_messages)] that stops at the first
    [AIMessage] with a true [content]. *)
Fixpoint first_ai_content (msgs : list BaseMessage) : option string :=
  match msgs with
  | [] => None
  | msg :: msgs' =>
      if is_AIMessage msg && truthy_str (content msg) then Some (content msg)
      else first_ai_content msgs'
  end.

Definition process_request (user_input : string) (video_uri : option string)
    (thread_id : string) : M World Response :=
  let config := thread_id in
  let initial_state :=
    {| messages := Some [HumanMessage user_input]; current_video_uri := video_uri |} in
  try_except
    (final_state ← graph_invoke initial_state config;
     let final_messages := default [] (messages final_state) in
     let final_output :=
       default "No response generated" (first_ai_content (reverse final_messages)) in
     mret {| final_output := final_output;
             response_messages := final_messages;
             response_video_uri := current_video_uri final_state;
             success := true |})
    (λ e,
     mret {| final_output := "Error processing request: " +:+ e;
             response_messages := [];
             response_video_uri := video_uri;
             success := false |}).

(** *** [get_conversation_history] *)

(** The entries of the history: dicts from field names to a [str] or [None]. *)
Definition history_entry (msg : BaseMessage) : list (gmap string (option string)) :=
  match msg with
  | HumanMessage c =>
      [ {[ "type" := Some "human"; "content" := Some c; "timestamp" := None ]} ]
  | AIMessage c _ =>
      let content :=
        if hasattr_tool_calls msg && truthy_list (get_tool_calls msg)
        then c +:+ " [Called tools: " +:+ String.concat ", " (tc_name <$> get_tool_calls msg) +:+ "]"
        else c in
      if truthy_str content
      then [ {[ "type" := Some "ai"; "content" := Some content; "timestamp" := None ]} ]
      else []
  | ToolMessage c id =>
      [ {[ "type" := Some "tool"; "content" := Some c; "tool_call_id" := Some id;
           "timestamp" := None ]} ]
  | SystemMessage _ => []
  end.

Definition history_of (messages : list BaseMessage) : list (gmap string (option string)) :=
  foldl (λ history msg, history ++ history_entry msg) [] messages.

Definition get_conversation_history (thread_id : string)
    : M World (list (gmap string (option string))) :=
  let config := thread_id in
  try_except
    (current_state ← graph_get_state config;
     match current_state with
     | Some values => mret (history_of (default [] (messages values)))
     | None => mret []
     end)
    (λ e, mret []).

End Graph.

End Agent.

(** ** The properties, in the words of the specification *)

Module Spec.
Import Tools Py Agent.

(** [r] is [s] with all trailing '/' characters removed. *)
Definition trailing_slashes_removed (s r : string) : Prop :=
  (∀ p, r ≠ p +:+ "/") ∧ ∃ n, s = r +:+ PyStr.replicate n "/"%char.

(** [needle] occurs in [hay]. *)
Definition occurs_in (needle hay : string) : Prop :=
  ∃ pre post, hay = pre +:+ needle +:+ post.

(** An S3 URI: a string with the scheme [s3://]. *)
Definition is_s3_uri (s : string) : bool := PyStr.startswith s "s3://".

(** A mock file path: an object of the mock bucket's output folder. *)
Definition is_mock_path (s : string) : bool :=
  PyStr.startswith s "s3://mock-bucket/output/".

(** The paths a media value holds. *)
Definition media_paths (media : pyval) : list string :=
  match media with PStr s => [s] | PList l => l end.

(** A success string, as the tools word it. *)
Definition is_success_string (s : string) : bool := PyStr.endswith s " successfully".

(** The shape of a tool's result: exactly the keys ["message"] and ["media"],
    a success message, and as media one S3 URI, or a list of two for
    [split_video]. *)
Definition media_shape (f : tool_function) (media : pyval) : Prop :=
  match f, media with
  | Split_video, PList [u1; u2] => is_s3_uri u1 = true ∧ is_s3_uri u2 = true
  | Split_video, _ => False
  | _, PStr u => is_s3_uri u = true
  | _, PList _ => False
  end.

Definition has_message_and_media (d : dict) : Prop :=
  dom d = ({[ "message"; "media" ]} : gset string)
  ∧ ∃ m, d !! "message" = Some (PStr m) ∧ is_success_string m = true.

Definition result_shape (f : tool_function) (d : dict) : Prop :=
  has_message_and_media d ∧ ∃ media, d !! "media" = Some media ∧ media_shape f media.

(** A message that is an [AIMessage] with non-empty content. *)
Definition ai_with_content (msg : BaseMessage) : Prop :=
  ∃ c tcs, msg = AIMessage c tcs ∧ c ≠ "".

(** [out] is the content of the last [AIMessage] of [msgs] that has non-empty
    content, or the fallback text when there is none. *)
Definition is_final_output (msgs : list BaseMessage) (out : string) : Prop :=
  (∃ pre c tcs post,
      msgs = pre ++ AIMessage c tcs :: post ∧ c ≠ "" ∧ out = c
      ∧ Forall (λ msg, ¬ ai_with_content msg) post)
  ∨ (Forall (λ msg, ¬ ai_with_content msg) msgs ∧ out = "No response generated").

(** The messages a thread has persisted. *)
Definition thread_messages (w : World) (thread_id : string) : list BaseMessage :=
  default [] (memory w !! thread_id ≫= messages).

(** The world after a sequence of calls of [process_request], each given by
    its user input, video URI and thread id. *)
Definition serve llm_with_tools tool_node recursion_limit GraphRecursionError
    (calls : list (string * option string * string)) (w : World) : World :=
  foldl (λ w '(user_input, video_uri, thread_id),
           (process_request llm_with_tools tool_node recursion_limit GraphRecursionError
              user_input video_uri thread_id w).2) w calls.

(** A computation leaves the persisted state of every thread, or of the
    thread [t], as it was. *)
Definition keeps_memory {A} (m : M World A) : Prop :=
  ∀ w, memory (m w).2 = memory w.

Definition keeps_thread {A} (t : string) (m : M World A) : Prop :=
  ∀ w, memory (m w).2 !! t = memory w !! t.

End Spec.

(** ** A concrete run

    Collaborators to run the agent on: a model that asks for one tool call
    and then answers, a model that is unreachable, and a tool node that
    reports one result for the last tool call. *)

Module Scenario.
Import Tools Py Agent.

Definition trim_call : ToolCall :=
  {| tc_name := "trim_video";
     tc_args := {[ "video_s3_uri" := JStr "s3://in/a.mp4";
                   "start_time" := JInt 0; "end_time" := JInt 5 ]};
     tc_id := "call_1" |}.

Definition llm (n : nat) (msgs : list BaseMessage) : exc + (string * option (list ToolCall)) :=
  match last msgs with
  | Some (ToolMessage _ _) => inr ("Trimmed the video.", Some [])
  | _ => inr ("", Some [trim_call])
  end.

Definition llm_down (n : nat) (msgs : list BaseMessage) : exc + (string * option (list ToolCall)) :=
  inl "Connection error.".

Definition tool_node (n : nat) (state : AgentState) : exc + list BaseMessage :=
  inr [ToolMessage "done" "call_1"].

Definition recursion_limit : nat := 25.

Definition GraphRecursionError : exc := "Recursion limit of 25 reached".

Definition empty_world : World := {| memory := ∅; clock := 0 |}.

(** A world in which the thread "bob" has a conversation under way. *)
Definition bob_world : World :=
  {| memory := {[ "bob" := {| messages := Some [HumanMessage "hello"; AIMessage "Hi!" (Some [])];
                              current_video_uri := None |} ]};
     clock := 2 |}.

(** A request, and the state once the model has asked for the tool. *)
Definition request : AgentState :=
  {| messages := Some [HumanMessage "Trim the first five seconds"];
     current_video_uri := Some "s3://in/a.mp4" |}.

Definition asked : AgentState :=
  apply_update request [AIMessage "" (Some [trim_call])].

End Scenario.

(** ** Python strings by code point *)

Module PyText.

(** A continuation byte of a UTF-8 sequence: [10xxxxxx]. *)
Definition is_continuation (c : ascii) : bool :=
  match c with Ascii _ _ _ _ _ _ b6 b7 => b7 && negb b6 end.

(** [len(s)]: the number of code points, which is the number of bytes of the
    encoding that are not continuation bytes. *)
Fixpoint len (s : string) : nat :=
  match s with
  | EmptyString => 0
  | String c s' => if is_continuation c then len s' else S (len s')
  end.

(** [s[:n]]: the first [n] code points, each with its continuation bytes. *)
Fixpoint slice_to (n : nat) (s : string) : string :=
  match s with
  | EmptyString => EmptyString
  | String c s' =>
      if is_continuation c then String c (slice_to n s')
      else match n with
           | 0 => EmptyString
           | S n' => String c (slice_to n' s')
           end
  end.

(** [str(n)] for a non-negative [int]. *)
Definition str_of_nat (n : nat) : string := pretty n.

End PyText.

(** ** [VideoEditingAgent.__init__] and [create_video_editing_agent] *)

Module Init.
Import Py Agent.

(** Truth value of a [str] or [None]. *)
Definition truthy (v : option string) : bool :=
  match v with
  | Some s => truthy_str s
  | None => false
  end.

(** [a or b]. *)
Definition py_or (a b : option string) : option string :=
  if truthy a then a else b.

(** [os.getenv(key)], [os.getenv(key, fallback)] and
    [os.environ[key] = value], over the environment as a dict.  Storing
    [None] is a [TypeError]. *)
Definition getenv (key : string) : M (gmap string string) (option string) :=
  environ ← get; mret (environ !! key).

Definition getenv_default (key fallback : string) : M (gmap string string) string :=
  environ ← get; mret (default fallback (environ !! key)).

Definition setenv (key : string) (value : option string) : M (gmap string string) unit :=
  match value with
  | Some v => modify (insert key v)
  | None => raise "str expected, not NoneType"
  end.

(** The attributes of the agent that [__init__] computes itself.  The model
    client, the tool node and the compiled graph are objects of the
    framework; [agent_memory] is the new, empty [MemorySaver]. *)
Record VideoEditingAgent := {
  openai_api_key : option string;
  langsmith_api_key : option string;
  langsmith_project : option string;
  agent_tools : list StructuredTool;
  agent_memory : gmap string AgentState
}.

(** The default of the parameter [langsmith_project]; the two keys default
    to [None]. *)
Definition default_langsmith_project : option string := Some "video-editing-agent".

Definition __init__ (openai_api_key langsmith_api_key langsmith_project : option string)
    : M (gmap string string) VideoEditingAgent :=
  env_key ← getenv "OPENAI_API_KEY";
  let self_openai_api_key := py_or openai_api_key env_key in
  if negb (truthy self_openai_api_key)
  then raise "OpenAI API key is required. Set OPENAI_API_KEY environment variable or pass it directly."
  else
    env_langsmith ← getenv "LANGSMITH_API_KEY";
    let self_langsmith_api_key := py_or langsmith_api_key env_langsmith in
    env_project ← getenv_default "LANGSMITH_PROJECT" "video-editing-agent";
    let self_langsmith_project := py_or langsmith_project (Some env_project) in
    (if truthy self_langsmith_api_key
     then setenv "LANGCHAIN_TRACING_V2" (Some "true");;
          setenv "LANGCHAIN_ENDPOINT" (Some "https://api.smith.langchain.com");;
          setenv "LANGCHAIN_API_KEY" self_langsmith_api_key;;
          setenv "LANGCHAIN_PROJECT" self_langsmith_project
     else mret ());;
    mret {| openai_api_key := self_openai_api_key;
            langsmith_api_key := self_langsmith_api_key;
            langsmith_project := self_langsmith_project;
            agent_tools := _register_tools;
            agent_memory := ∅ |}.

Definition create_video_editing_agent
    (openai_api_key langsmith_api_key langsmith_project : option string)
    : M (gmap string string) VideoEditingAgent :=
  __init__ openai_api_key langsmith_api_key langsmith_project.

End Init.

(** ** [clear_history] *)

Module Clear.
Import Py Agent.

Section UpdateState.

(** The framework may refuse an update of a thread's state, with an error. *)
Variable update_state_refused : string → option AgentState → option exc.

(** Modelled from the spec: [self.graph.update_state(config, update,
    as_node)] of the framework.  The update [{"messages": update}] goes
    through the reducer that [AgentState] attaches to [messages] and the
    result is saved as the thread's state. *)
Definition graph_update_state (thread_id : string) (update : list BaseMessage)
    : M World unit :=
  w ← get;
  let saved := memory w !! thread_id in
  match update_state_refused thread_id saved with
  | Some e => raise e
  | None =>
      put_checkpoint thread_id
        (apply_update (default {| messages := None; current_video_uri := None |} saved) update)
  end.

Definition clear_history (thread_id : string) : M World bool :=
  try_except
    (let config := thread_id in
     graph_update_state config [];;
     mret true)
    (λ e, mret false).

End UpdateState.

End Clear.

(** ** [tests/test_agent.py] *)

Module TestAgent.
Import Py Agent Init.

Definition expected_tools : list string :=
  [ "trim_video"; "split_video"; "merge_clips"; "crop_frame";
    "resize_video"; "change_resolution"; "adjust_frame_rate";
    "color_correct"; "add_transition"; "add_overlay"; "add_subtitles";
    "add_captions"; "add_soundtrack"; "adjust_volume";
    "remove_background_noise"; "generate_thumbnail"; "add_intro";
    "add_outro"; "export_video"; "change_format" ].

(** [set(expected_tools) - set(registered_tool_names)] for an agent. *)
Definition missing_tools (agent : VideoEditingAgent) : gset string :=
  list_to_set expected_tools ∖ list_to_set (name <$> agent_tools agent).

(** The test: it returns [True] unless creating the agent raises, whatever
    it finds missing; the second component is the set it reports. *)
Definition test_agent_initialization : M (gmap string string) (bool * gset string) :=
  let api_key := "test-key-12345" in
  try_except
    (agent ← create_video_editing_agent (Some api_key) None default_langsmith_project;
     mret (true, missing_tools agent))
    (λ e, mret (false, ∅)).

End TestAgent.

(** ** [main.py] *)

Module Main.
Import Py Agent Init.

(** What can end a computation of the console program: an [Exception] (an
    [EOFError] among them), a [KeyboardInterrupt], or [sys.exit]. *)
Inductive signal :=
| Exception (e : exc)
| KeyboardInterrupt
| SystemExit (code : Z).

Definition EOFError : signal := Exception "EOF when reading a line".

(** What the user does at a prompt: enter a line, or press Ctrl-C.  The end
    of the list is the end of the input. *)
Inductive input_event :=
| Line (s : string)
| CtrlC.

(** The state of the process: the pending input, the environment, and the
    state behind the agent object (its memory and the calls made so far). *)
Record Process := {
  stdin : list input_event;
  environ : gmap string string;
  agent : World
}.

Definition set_stdin (l : list input_event) (p : Process) : Process :=
  {| stdin := l; environ := environ p; agent := agent p |}.

Definition set_environ (e : gmap string string) (p : Process) : Process :=
  {| stdin := stdin p; environ := e; agent := agent p |}.

Definition set_agent (w : World) (p : Process) : Process :=
  {| stdin := stdin p; environ := environ p; agent := w |}.

Definition IO (A : Type) : Type := Process → (signal + A) * Process.

#[global] Instance IO_ret : MRet IO := λ A a p, (inr a, p).

#[global] Instance IO_bind : MBind IO := λ A B k m p,
  match m p with
  | (inr a, p') => k a p'
  | (inl s, p') => (inl s, p')
  end.

(** [input(prompt)]. *)
Definition input : IO string := λ p,
  match stdin p with
  | [] => (inl EOFError, p)
  | Line s :: rest => (inr s, set_stdin rest p)
  | CtrlC :: rest => (inl KeyboardInterrupt, set_stdin rest p)
  end.

(** [sys.exit(code)]. *)
Definition sys_exit {A} (code : Z) : IO A := λ p, (inl (SystemExit code), p).

(** A computation on the environment, or on the agent, inside the process. *)
Definition in_environ {A} (m : M (gmap string string) A) : IO A := λ p,
  match m (environ p) with
  | (inr a, e) => (inr a, set_environ e p)
  | (inl err, e) => (inl (Exception err), set_environ e p)
  end.

Definition in_agent {A} (m : M World A) : IO A := λ p,
  match m (agent p) with
  | (inr a, w) => (inr a, set_agent w p)
  | (inl err, w) => (inl (Exception err), set_agent w p)
  end.

(** [try: body / except KeyboardInterrupt: handler] and
    [try: body / except Exception as e: handler(e)]. *)
Definition except_KeyboardInterrupt {A} (body handler : IO A) : IO A := λ p,
  match body p with
  | (inl KeyboardInterrupt, p') => handler p'
  | r => r
  end.

Definition except_Exception {A} (body : IO A) (handler : exc → IO A) : IO A := λ p,
  match body p with
  | (inl (Exception e), p') => handler e p'
  | r => r
  end.

(** An [Exception] raised, or a value returned, by a pure computation. *)
Definition raise_or_return {A} (r : exc + A) : IO A := λ p,
  match r with
  | inl e => (inl (Exception e), p)
  | inr a => (inr a, p)
  end.

(** The two lines [print_history] prints above the entries. *)
Definition history_header (thread_id : string) : list string :=
  [ "
📜 CONVERSATION HISTORY (Thread: " +:+ thread_id +:+ "):";
    PyStr.replicate 50 "-" ].

(** The new agent object takes the place of the process's agent: its memory
    is the new, empty one. *)
Definition install_agent (new_agent : VideoEditingAgent) : IO unit := λ p,
  (inr (), set_agent (set_memory (λ _, agent_memory new_agent) (agent p)) p).

Definition demo_video : string := "s3://demo-bucket/input/video.mp4".

Section Console.

(** [str.strip] and [str.lower], which follow the Unicode tables of the
    Python runtime. *)
Variable strip : string → string.
Variable lower : string → string.

Variable llm_with_tools : nat → list BaseMessage → exc + (string * option (list ToolCall)).
Variable tool_node : nat → AgentState → exc + list BaseMessage.
Variable recursion_limit : nat.
Variable GraphRecursionError : exc.

Definition get_openai_api_key : IO string :=
  api_key ← in_environ (getenv "OPENAI_API_KEY");
  if negb (truthy api_key)
  then
    line ← input;
    let api_key := strip line in
    if negb (truthy_str api_key) then sys_exit 1 else mret api_key
  else mret (default "" api_key).

(** The pair [(api_key, project)]. *)
Definition get_langsmith_config : IO (option string * string) :=
  api_key ← in_environ (getenv "LANGSMITH_API_KEY");
  project ← in_environ (getenv_default "LANGSMITH_PROJECT" "video-editing-agent");
  if negb (truthy api_key)
  then
    line ← input;
    let enable_tracing := lower (strip line) in
    if bool_decide (enable_tracing ∈ ["y"; "yes"])
    then
      line ← input;
      let api_key := strip line in
      if truthy_str api_key
      then
        line ← input;
        let custom_project := strip line in
        if truthy_str custom_project
        then mret (Some api_key, custom_project)
        else mret (Some api_key, project)
      else mret (None, project)
    else mret (None, project)
  else mret (api_key, project).

(** *** [print_history]

    Given by the lines it prints.  An entry without ["type"] or ["content"]
    is a [KeyError], a content [None] a [TypeError]. *)
Definition history_line (i : nat) (msg : gmap string (option string)) : exc + string :=
  match msg !! "type" with
  | None => inl "'type'"
  | Some type =>
      let msg_type := if bool_decide (type = Some "human") then "👤 You" else "🤖 Agent" in
      match msg !! "content" with
      | None => inl "'content'"
      | Some None => inl "object of type 'NoneType' has no len()"
      | Some (Some text) =>
          let content :=
            if bool_decide (100 < PyText.len text)
            then PyText.slice_to 100 text +:+ "..."
            else text in
          inr (PyText.str_of_nat i +:+ ". " +:+ msg_type +:+ ": " +:+ content)
      end
  end.

(** The loop [for i, msg in enumerate(history, 1)], from index [i] on. *)
Fixpoint history_lines (i : nat) (history : list (gmap string (option string)))
    : exc + list string :=
  match history with
  | [] => inr []
  | msg :: history' =>
      match history_line i msg with
      | inl e => inl e
      | inr line =>
          match history_lines (S i) history' with
          | inl e => inl e
          | inr lines => inr (line :: lines)
          end
      end
  end.

Definition print_history (thread_id : string) : IO (list string) :=
  history ← in_agent (get_conversation_history thread_id);
  if negb (truthy_list history)
  then mret ["No conversation history found."]
  else
    lines ← raise_or_return (history_lines 1 history);
    mret (history_header thread_id ++ lines).

(** *** The interaction loop of [main]

    One pass through the body of [while True], entered with the current
    [thread_id]: [None] when the loop is left, else the [thread_id] of the
    next pass. *)
Definition iteration (thread_id : string) : IO (option string) :=
  except_Exception
    (except_KeyboardInterrupt
       (line ← input;
        let user_input := strip line in
        if negb (truthy_str user_input) then mret (Some thread_id)
        else if bool_decide (lower user_input ∈ ["quit"; "exit"]) then mret None
        else if bool_decide (lower user_input = "help") then mret (Some thread_id)
        else if bool_decide (lower user_input = "history")
        then print_history thread_id;; mret (Some thread_id)
        else if bool_decide (lower user_input = "clear")
        then mret (Some ("session_" +:+ PyText.str_of_nat (PyText.len thread_id)))
        else
          line ← input;
          let video_uri := strip line in
          let video_uri := if negb (truthy_str video_uri) then demo_video else video_uri in
          result ← in_agent
                     (process_request llm_with_tools tool_node recursion_limit
                        GraphRecursionError user_input (Some video_uri) thread_id);
          mret (Some thread_id))
       (mret None))
    (λ e, mret (Some thread_id)).

(** The loop, for at most [fuel] passes: [None] when it is still running
    after them. *)
Fixpoint main_loop (fuel : nat) (thread_id : string) (p : Process)
    : option ((signal + unit) * Process) :=
  match fuel with
  | 0 => None
  | S fuel' =>
      match iteration thread_id p with
      | (inr (Some thread_id'), p') => main_loop fuel' thread_id' p'
      | (inr None, p') => Some (inr (), p')
      | (inl s, p') => Some (inl s, p')
      end
  end.

(** What [main] does before the loop: the keys, then the agent. *)
Definition startup : IO VideoEditingAgent :=
  config ← except_KeyboardInterrupt
             (api_key ← get_openai_api_key;
              langsmith ← get_langsmith_config;
              mret (api_key, langsmith))
             (sys_exit 0);
  except_Exception
    (new_agent ← in_environ
                   (create_video_editing_agent (Some config.1) config.2.1 (Some config.2.2));
     install_agent new_agent;;
     mret new_agent)
    (λ e, sys_exit 1).

Definition main (fuel : nat) (p : Process) : option ((signal + unit) * Process) :=
  match startup p with
  | (inr _, p') => main_loop fuel "main_session" p'
  | (inl s, p') => Some (inl s, p')
  end.

End Console.

End Main.

(** ** [examples/langsmith_example.py] *)

Module LangsmithExample.
Import Py Agent Init.

(** The pair it returns is [(None, None)] when no key is set. *)
Definition setup_langsmith_tracing
    : M (gmap string string) (option string * option string) :=
  setenv "LANGCHAIN_TRACING_V2" (Some "true");;
  setenv "LANGCHAIN_ENDPOINT" (Some "https://api.smith.langchain.com");;
  langsmith_api_key ← getenv "LANGSMITH_API_KEY";
  langsmith_project ← getenv_default "LANGSMITH_PROJECT" "video-editing-agent";
  if negb (truthy langsmith_api_key)
  then mret (None, None)
  else
    setenv "LANGCHAIN_API_KEY" langsmith_api_key;;
    setenv "LANGCHAIN_PROJECT" (Some langsmith_project);;
    mret (langsmith_api_key, Some langsmith_project).

(** The part of [run_traced_examples] that sets the process up: the agent it
    goes on with, or [None] where it returns early. *)
Definition traced_agent : M (gmap string string) (option VideoEditingAgent) :=
  config ← setup_langsmith_tracing;
  let langsmith_key := config.1 in
  let langsmith_project := config.2 in
  if negb (truthy langsmith_key) then mret None
  else
    openai_key ← getenv "OPENAI_API_KEY";
    if negb (truthy openai_key) then mret None
    else
      agent ← create_video_editing_agent openai_key langsmith_key langsmith_project;
      mret (Some agent).

End LangsmithExample.

(** ** A concrete session at the console

    [strip] and [lower] as they act on ASCII text, and a user who asks for a
    trim, looks at the history, clears twice and quits. *)

Module Session.
Import Py Agent Init Main.

Definition is_space (c : ascii) : bool :=
  bool_decide (c ∈ [" "; "009"; "010"; "011"; "012"; "013";
                    "028"; "029"; "030"; "031"]%char).

Fixpoint lstrip (s : string) : string :=
  match s with
  | String c s' => if is_space c then lstrip s' else s
  | EmptyString => EmptyString
  end.

Fixpoint rstrip (s : string) : string :=
  match s with
  | EmptyString => EmptyString
  | String c s' =>
      match rstrip s' with
      | EmptyString => if is_space c then EmptyString else String c EmptyString
      | r => String c r
      end
  end.

Definition strip (s : string) : string := rstrip (lstrip s).

Definition lower_char (c : ascii) : ascii :=
  let n := nat_of_ascii c in
  if bool_decide (65 ≤ n ≤ 90) then ascii_of_nat (n + 32) else c.

Fixpoint lower (s : string) : string :=
  match s with
  | EmptyString => EmptyString
  | String c s' => String (lower_char c) (lower s')
  end.

Definition start : Process :=
  {| stdin := [ Line "sk-live-1"; Line "n";
                Line "  Trim the first five seconds "; Line "";
                Line "History"; Line "clear"; Line "CLEAR"; Line "clear"; Line "quit";
                Line "never read" ];
     environ := {[ "HOME" := "/home/user" ]};
     agent := Scenario.bob_world |}.

Definition run (fuel : nat) (p : Process) : option ((signal + unit) * Process) :=
  main strip lower Scenario.llm Scenario.tool_node Scenario.recursion_limit
    Scenario.GraphRecursionError fuel p.

End Session.

(** ** Words for the properties of the further code *)

Module Vocabulary.
Import Py Agent Init Main.

(** A message that [get_conversation_history] shows: not a system message,
    and not an [AIMessage] with neither content nor tool calls. *)
Definition visible (msg : BaseMessage) : bool :=
  match msg with
  | HumanMessage _ | ToolMessage _ _ => true
  | SystemMessage _ => false
  | AIMessage c tcs => truthy_str c || truthy_list (default [] tcs)
  end.

(** The video URI the model is told about. *)
Definition effective_uri (state : AgentState) : string :=
  match current_video_uri state with
  | Some (String c uri) => String c uri
  | _ => "No video URI provided"
  end.

(** The entry of the history for a message of the user. *)
Definition human_entry (text : string) : gmap string (option string) :=
  {[ "type" := Some "human"; "content" := Some text; "timestamp" := None ]}.

(** An entry as [get_conversation_history] documents it: a type among
    "human", "ai" and "tool", a content that is a [str], non-empty for "ai",
    a timestamp that is [None], and a "tool_call_id" for "tool" only. *)
Definition well_formed_entry (entry : gmap string (option string)) : Prop :=
  entry !! "timestamp" = Some None
  ∧ ∃ text, entry !! "content" = Some (Some text)
    ∧ ( (entry !! "type" = Some (Some "human")
         ∧ dom entry = ({[ "type"; "content"; "timestamp" ]} : gset string))
      ∨ (entry !! "type" = Some (Some "ai") ∧ text ≠ ""
         ∧ dom entry = ({[ "type"; "content"; "timestamp" ]} : gset string))
      ∨ (entry !! "type" = Some (Some "tool")
         ∧ (∃ id, entry !! "tool_call_id" = Some (Some id))
         ∧ dom entry = ({[ "type"; "content"; "tool_call_id"; "timestamp" ]} : gset string)) ).

(** The user enters a line that the loop of [main] reads as [command]. *)
Definition reads_as (strip lower : string → string) (command : string)
    (event : input_event) : Prop :=
  ∃ line, event = Line line ∧ strip line ≠ "" ∧ lower (strip line) = command.

(** The four variables [__init__] sets when tracing is on. *)
Definition tracing_variables : list string :=
  [ "LANGCHAIN_TRACING_V2"; "LANGCHAIN_ENDPOINT"; "LANGCHAIN_API_KEY"; "LANGCHAIN_PROJECT" ].

End Vocabulary.

Import Tools Py Agent Spec.

(** The functions of the tools module are these twenty. *)
#[global] Program Instance tool_function_finite : Finite tool_function := {|
  enum := [ Trim_video; Split_video; Merge_clips; Crop_frame; Resize_video;
            Change_resolution; Adjust_frame_rate; Color_correct; Add_transition;
            Add_overlay; Add_subtitles; Add_captions; Add_soundtrack;
            Adjust_volume; Remove_background_noise; Generate_thumbnail;
            Add_intro; Add_outro; Export_video; Change_format ]
|}.
Next Obligation. by apply (bool_decide_unpack _). Qed.
Next Obligation. intros []; set_solver. Qed.

(** * Properties of the string operations *)

Section Strings.
Implicit Types s r p hay needle : string.

Lemma string_app_nil_r s : s +:+ "" = s.
Proof. induction s as [|c s IH]; [done|]. unfold String.app; fold String.app. by rewrite IH. Qed.

Lemma string_app_cons c s r : String c s +:+ r = String c (s +:+ r).
Proof. done. Qed.

Lemma string_app_assoc s r p : (s +:+ r) +:+ p = s +:+ r +:+ p.
Proof. induction s as [|c s IH]; [done|]. by rewrite !string_app_cons, IH. Qed.

Lemma string_app_length s r : String.length (s +:+ r) = String.length s + String.length r.
Proof. induction s as [|c s IH]; [done|]. rewrite string_app_cons. simpl. by rewrite IH. Qed.

Lemma string_app_inj_length s s' r r' :
  String.length s = String.length s' → s +:+ r = s' +:+ r' → s = s' ∧ r = r'.
Proof.
  revert s'. induction s as [|c s IH]; intros [|c' s'] Hlen Heq; simplify_eq/=; [done|].
  destruct (IH s') as [-> ->]; done.
Qed.

Lemma string_app_inj_r s s' r : s +:+ r = s' +:+ r → s = s'.
Proof.
  intros Heq. apply (string_app_inj_length s s' r r); [|done].
  apply (f_equal String.length) in Heq. rewrite !string_app_length in Heq. lia.
Qed.

Lemma string_app_snoc_not_nil p c : p +:+ String c "" ≠ "".
Proof. by destruct p. Qed.

Lemma replicate_snoc n c : PyStr.replicate (S n) c = PyStr.replicate n c +:+ String c "".
Proof. induction n as [|n IH]; [done|]. simpl in *. by rewrite string_app_cons, <-IH. Qed.

Lemma cons_neq c s : String c s ≠ s.
Proof. intros H. apply (f_equal String.length) in H. simpl in H. lia. Qed.

(** [rstrip] does what the words "all trailing '/' removed" say. *)
Lemma rstrip_no_trailing_slash s p : PyStr.rstrip s "/" ≠ p +:+ "/".
Proof.
  revert p. induction s as [|c s IH]; intros p; simpl.
  { apply not_eq_sym, string_app_snoc_not_nil. }
  destruct (PyStr.rstrip s "/") as [|d r] eqn:Hr.
  - destruct (decide (c = "/"%char)) as [->|Hc]; simpl; [done|].
    destruct p as [|c' p]; [intros [=]; done|].
    rewrite string_app_cons. intros [= _ H]. by apply (string_app_snoc_not_nil p "/"%char).
  - destruct p as [|c' p]; [intros [=]|].
    rewrite string_app_cons. intros [= _ H]. by apply (IH p).
Qed.

Lemma rstrip_trailing_slashes s :
  ∃ n, s = PyStr.rstrip s "/" +:+ PyStr.replicate n "/"%char.
Proof.
  induction s as [|c s [n IH]]; simpl.
  { by exists 0. }
  destruct (PyStr.rstrip s "/") as [|d r] eqn:Hr.
  - case_decide as Hc.
    + exists (S n). subst c. simpl. by rewrite IH at 1.
    + exists n. rewrite string_app_cons. by rewrite IH at 1.
  - exists n. rewrite string_app_cons. by rewrite IH at 1.
Qed.

Lemma rstrip_spec s : trailing_slashes_removed s (PyStr.rstrip s "/").
Proof. split; [apply rstrip_no_trailing_slash | apply rstrip_trailing_slashes]. Qed.

Lemma trailing_slashes_removed_unique s r r' :
  trailing_slashes_removed s r → trailing_slashes_removed s r' → r = r'.
Proof.
  intros [Hr [n ->]] [Hr' [n' Heq]].
  revert n' Heq. induction n as [|n IH]; intros [|n'] Heq.
  - by rewrite !string_app_nil_r in Heq.
  - rewrite string_app_nil_r, replicate_snoc, <-string_app_assoc in Heq. by destruct (Hr _ Heq).
  - rewrite string_app_nil_r, replicate_snoc, <-string_app_assoc in Heq. by destruct (Hr' _ (eq_sym Heq)).
  - apply (IH n'). rewrite !replicate_snoc, <-!string_app_assoc in Heq. by apply string_app_inj_r in Heq.
Qed.

End Strings.

(** * Properties of the tools *)

Section ToolsProperties.

Local Ltac destruct_args :=
  repeat match goal with
         | a : args_of _ |- _ => simpl in a
         | a : (_ * _)%type |- _ => destruct a
         end.

Lemma startswith_app s t p :
  PyStr.startswith s p = true → PyStr.startswith (s +:+ t) p = true.
Proof.
  revert s. induction p as [|c p IH]; intros [|d s]; simpl; try done.
  - by destruct t.
  - case_decide; [apply IH | done].
Qed.

(** The result of every tool has the keys ["message"] and ["media"] and
    a success message. *)
Lemma call_has_message_and_media (f : tool_function) (a : args_of f) :
  has_message_and_media (call f a).
Proof.
  destruct f; destruct_args; (split; [done | eexists; split; [reflexivity | done]]).
Qed.

(** C6. For every video_s3_uri, output_format and output_s3_uri, export_video
    returns a dict whose "message" is "Video exported successfully" and whose
    "media" is output_s3_uri with all trailing '/' removed, followed by
    "/exported_video." and output_format; the result does not depend on
    video_s3_uri, and it changes with output_format and with output_s3_uri
    (up to its trailing '/'). *)
Theorem export_video_result (video_s3_uri output_format output_s3_uri : string) :
  let result := export_video video_s3_uri output_format output_s3_uri in
  result !! "message" = Some (PStr "Video exported successfully")
  ∧ (∃ r, trailing_slashes_removed output_s3_uri r
          ∧ result !! "media" = Some (PStr (r +:+ "/exported_video." +:+ output_format)))
  ∧ (∀ v', export_video v' output_format output_s3_uri = result)
  ∧ (∀ fmt', export_video video_s3_uri fmt' output_s3_uri = result ↔ fmt' = output_format)
  ∧ (∀ out' r r', trailing_slashes_removed out' r' →
                  trailing_slashes_removed output_s3_uri r →
                  export_video video_s3_uri output_format out' = result ↔ r' = r).
Proof.
  intros result. subst result.
  split; [done|]. split.
  { exists (PyStr.rstrip output_s3_uri "/"). split; [apply rstrip_spec | done]. }
  split; [done|]. split.
  - intros fmt'. split; [|by intros ->].
    intros Heq. apply (f_equal (lookup "media")) in Heq.
    unfold export_video in Heq.
    rewrite !lookup_insert_ne, !lookup_singleton_eq in Heq by done.
    simplify_eq. by repeat match goal with H : _ +:+ _ = _ +:+ _ |- _ => apply (inj _) in H end.
  - intros out' r r' Hr' Hr.
    rewrite (trailing_slashes_removed_unique _ _ _ Hr' (rstrip_spec out')).
    rewrite (trailing_slashes_removed_unique _ _ _ Hr (rstrip_spec output_s3_uri)).
    split.
    + intros Heq. apply (f_equal (lookup "media")) in Heq.
      unfold export_video in Heq.
      rewrite !lookup_insert_ne, !lookup_singleton_eq in Heq by done.
      simplify_eq. by eapply string_app_inj_r.
    + intros Hstrip. unfold export_video. by rewrite Hstrip.
Qed.

Lemma export_video_result_witness :
  export_video "s3://in/a.mp4" "mp4" "s3://out/dir//" = export_video "s3://in/a.mp4" "mp4" "s3://out/dir/"
  ↔ "s3://out/dir" = "s3://out/dir".
Proof.
  refine (proj2 (proj2 (proj2 (proj2
    (export_video_result "s3://in/a.mp4" "mp4" "s3://out/dir/")))) "s3://out/dir//" _ _ _ _).
  - split; [|by exists 2]. intros p Hp.
    pose proof (rstrip_no_trailing_slash "s3://out/dir" p) as Hno. by apply Hno.
  - split; [|by exists 1]. intros p Hp.
    pose proof (rstrip_no_trailing_slash "s3://out/dir" p) as Hno. by apply Hno.
Defined.

(** C1, as stated, fails: the media of change_format follows its
    output_format argument, and the media of export_video follows
    output_format and output_s3_uri and need not be a mock path. *)
Lemma change_format_media_varies :
  call Change_format ("s3://in/a.mp4", "mp4") !! "media"
    = Some (PStr "s3://mock-bucket/output/converted_video.mp4")
  ∧ call Change_format ("s3://in/a.mp4", "avi") !! "media"
    = Some (PStr "s3://mock-bucket/output/converted_video.avi")
  ∧ call Export_video ("s3://in/a.mp4", "mp4", "s3://my-bucket/out/") !! "media"
    = Some (PStr "s3://my-bucket/out/exported_video.mp4")
  ∧ call Export_video ("s3://in/a.mp4", "mov", "s3://other/") !! "media"
    = Some (PStr "s3://other/exported_video.mov")
  ∧ is_mock_path "s3://my-bucket/out/exported_video.mp4" = false
  ∧ ¬ (∀ (f : tool_function) (a b : args_of f), call f a !! "media" = call f b !! "media").
Proof.
  split; [done|]. split; [done|]. split; [done|]. split; [done|]. split; [done|].
  intros H. specialize (H Change_format ("s3://in/a.mp4", "mp4") ("s3://in/a.mp4", "avi")).
  discriminate H.
Qed.

(** C1, amended. For every tool function other than export_video, and for
    all argument values, the "media" field of the returned dict is a mock
    file path under "s3://mock-bucket/output/" (for split_video a list of two
    such paths).  For every tool other than export_video and change_format it
    is fixed and hardcoded: one value that does not depend on any argument.
    The media of change_format is the hardcoded
    "s3://mock-bucket/output/converted_video." followed by output_format; the
    media of export_video is output_s3_uri without its trailing '/', followed
    by "/exported_video." and output_format.  Neither depends on
    video_s3_uri. *)
Theorem media_fixed_unless_formatted :
  (∀ f : tool_function, f ≠ Export_video → f ≠ Change_format →
     ∃ fixed,
       (∀ a : args_of f, call f a !! "media" = Some fixed)
       ∧ Forall (λ p, is_mock_path p = true) (media_paths fixed)
       ∧ if decide (f = Split_video)
         then ∃ path1 path2, fixed = PList [path1; path2]
         else ∃ path, fixed = PStr path)
  ∧ (∀ v fmt,
       call Change_format (v, fmt) !! "media"
         = Some (PStr ("s3://mock-bucket/output/converted_video." +:+ fmt))
       ∧ is_mock_path ("s3://mock-bucket/output/converted_video." +:+ fmt) = true)
  ∧ (∀ v fmt out,
       ∃ stem, trailing_slashes_removed out stem
               ∧ call Export_video (v, fmt, out) !! "media"
                 = Some (PStr (stem +:+ "/exported_video." +:+ fmt)))
  ∧ (∀ v v' fmt, call Change_format (v, fmt) = call Change_format (v', fmt))
  ∧ (∀ v v' fmt out, call Export_video (v, fmt, out) = call Export_video (v', fmt, out)).
Proof.
  split.
  { intros f Hexport Hformat.
    destruct f; try done;
      (eexists; split; [intros a; destruct_args; reflexivity|]);
      (split; [repeat constructor|]); case_decide; try done; repeat eexists. }
  split; [done|]. split; [|done].
  intros v fmt out. exists (PyStr.rstrip out "/"). split; [apply rstrip_spec|done].
Qed.

Lemma media_fixed_unless_formatted_witness :
  ∃ fixed,
    (∀ a : args_of Split_video, call Split_video a !! "media" = Some fixed)
    ∧ Forall (λ p, is_mock_path p = true) (media_paths fixed)
    ∧ if decide (Split_video = Split_video)
      then ∃ path1 path2, fixed = PList [path1; path2]
      else ∃ path, fixed = PStr path.
Proof. apply (proj1 media_fixed_unless_formatted Split_video); discriminate. Defined.

(** C9, as stated, fails: export_video puts its result under the caller's
    output_s3_uri, which need not be an S3 URI. *)
Lemma export_video_media_not_s3 :
  call Export_video ("s3://in/a.mp4", "mp4", "/tmp/out/") !! "media"
    = Some (PStr "/tmp/out/exported_video.mp4")
  ∧ ¬ result_shape Export_video (call Export_video ("s3://in/a.mp4", "mp4", "/tmp/out/")).
Proof.
  split; [done|].
  intros [_ (media & Hmedia & Hshape)].
  vm_compute in Hmedia. simplify_eq. vm_compute in Hshape. discriminate Hshape.
Qed.

(** C9, amended. For all argument values, every tool function returns a dict
    with exactly the two keys "message" and "media", where "message" is a
    success string.  "media" is a single S3 URI string for every tool except
    split_video, whose "media" is a list of exactly two S3 URI strings, and
    export_video, whose "media" is a single string that is an S3 URI whenever
    output_s3_uri without its trailing '/' is one. *)
Theorem tool_result_shape :
  (∀ (f : tool_function) (a : args_of f), f ≠ Export_video → result_shape f (call f a))
  ∧ (∀ v fmt out,
       has_message_and_media (call Export_video (v, fmt, out))
       ∧ ∃ u, call Export_video (v, fmt, out) !! "media" = Some (PStr u)
              ∧ ∀ r, trailing_slashes_removed out r → is_s3_uri r = true → is_s3_uri u = true).
Proof.
  split.
  - intros f a Hexport. split; [apply call_has_message_and_media|].
    destruct f; try done; destruct_args;
      (eexists; split; [reflexivity|]); done.
  - intros v fmt out. split; [apply (call_has_message_and_media Export_video (v, fmt, out))|].
    eexists. split; [reflexivity|].
    intros r Hr Hs3.
    rewrite <-(trailing_slashes_removed_unique _ _ _ Hr (rstrip_spec out)).
    by apply startswith_app.
Qed.

Lemma tool_result_shape_witness :
  result_shape Split_video (call Split_video ("s3://in/a.mp4", 1.5%float))
  ∧ ∃ u, call Export_video ("s3://in/a.mp4", "mov", "s3://out/dir/") !! "media" = Some (PStr u)
         ∧ is_s3_uri u = true.
Proof.
  split.
  - apply (proj1 tool_result_shape Split_video); discriminate.
  - destruct (proj2 tool_result_shape "s3://in/a.mp4" "mov" "s3://out/dir/")
      as [_ (u & Hu & Hs3)].
    exists u. split; [exact Hu|].
    apply (Hs3 "s3://out/dir"); [|reflexivity].
    split; [|by exists 1]. intros p Hp.
    by apply (rstrip_no_trailing_slash "s3://out/dir" p).
Defined.

(** C4. The tools module defines exactly twenty functions; _register_tools
    registers exactly these twenty, once each, from a static list, and names
    each registered tool after its function. *)
Theorem register_tools_exactly_twenty :
  card tool_function = 20
  ∧ length _register_tools = 20
  ∧ func <$> _register_tools = enum tool_function
  ∧ NoDup (name <$> _register_tools)
  ∧ Forall (λ t, name t = __name__ (func t)) _register_tools.
Proof.
  split; [done|]. split; [done|]. split; [done|]. split.
  - by apply (bool_decide_unpack _).
  - repeat constructor.
Qed.

End ToolsProperties.

(** * Properties of the agent *)

Section Prompt.

Lemma startswith_sound hay needle :
  PyStr.startswith hay needle = true → ∃ post, hay = needle +:+ post.
Proof.
  revert hay. induction needle as [|c needle IH]; intros hay; simpl.
  { intros _. by exists hay. }
  destruct hay as [|d hay]; [done|]. simpl.
  case_decide as Hcd; [|done]. subst d.
  intros Hstart. destruct (IH hay Hstart) as [post ->]. by exists post.
Qed.

Lemma find_unfold hay needle :
  PyStr.find hay needle =
    if PyStr.startswith hay needle then Some 0
    else match hay with
         | EmptyString => None
         | String _ hay' => S <$> PyStr.find hay' needle
         end.
Proof. by destruct hay. Qed.

Lemma find_sound hay needle i :
  PyStr.find hay needle = Some i → occurs_in needle hay.
Proof.
  revert i. induction hay as [|c hay IH]; intros i; rewrite find_unfold;
    destruct (PyStr.startswith _ needle) eqn:Hstart; try done;
    try (intros _; apply startswith_sound in Hstart as [post ->]; by exists "", post).
  destruct (PyStr.find hay needle) as [j|] eqn:Hfind; [|done].
  intros _. destruct (IH j eq_refl) as (pre & post & ->).
  by exists (String c pre), post.
Qed.

Lemma contains_sound hay needle :
  PyStr.contains hay needle = true → occurs_in needle hay.
Proof.
  unfold PyStr.contains. intros [i Hi]%bool_decide_eq_true.
  by apply (find_sound _ _ i).
Qed.

Lemma occurs_in_app_r needle pre hay : occurs_in needle hay → occurs_in needle (pre +:+ hay).
Proof. intros (p & q & ->). exists (pre +:+ p), q. by rewrite string_app_assoc. Qed.

Lemma occurs_in_app_l needle hay post : occurs_in needle hay → occurs_in needle (hay +:+ post).
Proof. intros (p & q & ->). exists p, (q +:+ post). by rewrite !string_app_assoc. Qed.

Lemma tail_names_registered_tools :
  Forall (λ n, PyStr.contains system_prompt_tail n = true) (name <$> _register_tools).
Proof. by apply (bool_decide_unpack _). Qed.

(** C7. The system prompt built by _create_system_message enumerates all of
    the registered tools: each of the twenty registered tool names occurs in
    the content of the message, and the message embeds the video URI passed to
    it, after the words "CURRENT VIDEO URI: ". *)
Theorem system_message_enumerates_tools (video_uri : string) :
  let text := content (_create_system_message video_uri) in
  length _register_tools = 20
  ∧ Forall (λ t, occurs_in (name t) text) _register_tools
  ∧ occurs_in ("CURRENT VIDEO URI: " +:+ video_uri) text.
Proof.
  simpl. split; [done|]. split.
  - pose proof tail_names_registered_tools as Htail.
    rewrite Forall_fmap in Htail. eapply Forall_impl; [exact Htail|].
    intros t Ht. simpl in Ht.
    by apply occurs_in_app_r, occurs_in_app_r, contains_sound.
  - assert (system_prompt_head
            = PyStr.take 121 system_prompt_head +:+ "CURRENT VIDEO URI: ") as Hhead by done.
    exists (PyStr.take 121 system_prompt_head), system_prompt_tail.
    rewrite Hhead at 1. by rewrite !string_app_assoc.
Qed.

End Prompt.

Section Run.

Variable llm_with_tools : nat → list BaseMessage → exc + (string * option (list ToolCall)).
Variable tool_node : nat → AgentState → exc + list BaseMessage.
Variable recursion_limit : nat.
Variable GraphRecursionError : exc.

Local Abbreviation run_from := (run_from llm_with_tools tool_node GraphRecursionError).
Local Abbreviation graph_invoke :=
  (graph_invoke llm_with_tools tool_node recursion_limit GraphRecursionError).
Local Abbreviation process_request :=
  (process_request llm_with_tools tool_node recursion_limit GraphRecursionError).
Local Abbreviation _call_agent := (_call_agent llm_with_tools).

(** ** The conditional edge *)

Lemma should_continue_cases (state : AgentState) :
  _should_continue state = "continue" ∨ _should_continue state = "end".
Proof.
  unfold _should_continue.
  destruct (truthy_list _); simpl; [|by right].
  destruct (last _) as [[]|]; simpl; auto.
  destruct (_ && _); auto.
Qed.

Lemma should_continue_continue (state : AgentState) :
  _should_continue state = "continue"
  ↔ ∃ msgs c tcs, messages state = Some (msgs ++ [AIMessage c (Some tcs)]) ∧ tcs ≠ [].
Proof.
  unfold _should_continue. split.
  - destruct (messages state) as [[|m l]|] eqn:Hmsgs; simpl; try done.
    destruct (last (m :: l)) as [last_message|] eqn:Hlast; [|done].
    apply last_Some in Hlast as [msgs Hlast].
    destruct last_message as [| c [[|tc tcs]|] | |]; simpl; try done.
    intros _. exists msgs, c, (tc :: tcs). by rewrite Hlast.
  - intros (msgs & c & [|tc tcs] & -> & Htcs); [done|]. simpl.
    rewrite last_snoc. by destruct msgs.
Qed.

(** One step of the run at the agent node: the state is merged and saved,
    and the conditional edge picks the next node. *)
Lemma run_from_agent_step fuel thread_id state w update w' :
  _call_agent state w = (inr update, w') →
  let state' := apply_update state update in
  run_from (S fuel) agent thread_id state w =
    if decide (_should_continue state' = "continue")
    then run_from fuel tools thread_id state' (set_memory (insert thread_id state') w')
    else (inr state', set_memory (insert thread_id state') w').
Proof.
  intros Hcall state'. simpl. unfold mbind, M_bind, bind at 1. rewrite Hcall.
  fold state'. unfold bind at 1, put_checkpoint, modify. simpl.
  destruct (should_continue_cases state') as [Hroute | Hroute]; rewrite Hroute.
  - by rewrite decide_True.
  - rewrite decide_False by done. by destruct fuel.
Qed.

(** C2. The decision loop of the agent is a single conditional edge.
    _should_continue returns "continue" if and only if the messages list is
    non-empty and its last message is an AIMessage whose tool_calls are
    present and non-empty; in every other case, an empty messages list
    included, it returns "end".  The edge routes "continue" to the tools node
    and "end" to END, where the run returns the state. *)
Theorem should_continue_decides (state : AgentState) :
  (_should_continue state = "continue"
   ↔ ∃ msgs c tcs, messages state = Some (msgs ++ [AIMessage c (Some tcs)]) ∧ tcs ≠ [])
  ∧ (_should_continue state ≠ "continue" → _should_continue state = "end")
  ∧ (default [] (messages state) = [] → _should_continue state = "end")
  ∧ conditional_edges !! "continue" = Some tools
  ∧ conditional_edges !! "end" = Some END
  ∧ (∀ fuel thread_id previous update w w',
       _call_agent previous w = (inr update, w') →
       state = apply_update previous update →
       run_from (S fuel) agent thread_id previous w =
         if decide (_should_continue state = "continue")
         then run_from fuel tools thread_id state (set_memory (insert thread_id state) w')
         else (inr state, set_memory (insert thread_id state) w')).
Proof.
  split; [apply should_continue_continue|]. split.
  { destruct (should_continue_cases state); [done|auto]. }
  split.
  { unfold _should_continue. by intros ->. }
  split; [done|]. split; [done|].
  intros fuel thread_id previous update w w' Hcall ->.
  by apply run_from_agent_step.
Qed.

End Run.

Lemma should_continue_decides_witness :
  run_from Scenario.llm Scenario.tool_node Scenario.GraphRecursionError
    3 agent "default" Scenario.request Scenario.empty_world
  = if decide (_should_continue Scenario.asked = "continue")
    then run_from Scenario.llm Scenario.tool_node Scenario.GraphRecursionError
           2 tools "default" Scenario.asked
           (set_memory (insert "default" Scenario.asked) (advance_clock Scenario.empty_world))
    else (inr Scenario.asked,
          set_memory (insert "default" Scenario.asked) (advance_clock Scenario.empty_world)).
Proof.
  refine (proj2 (proj2 (proj2 (proj2 (proj2
    (should_continue_decides Scenario.llm Scenario.tool_node Scenario.GraphRecursionError
       Scenario.asked))))) 2 "default" Scenario.request
    [AIMessage "" (Some [Scenario.trim_call])] Scenario.empty_world
    (advance_clock Scenario.empty_world) _ _);
    reflexivity.
Defined.

Section Requests.

Variable llm_with_tools : nat → list BaseMessage → exc + (string * option (list ToolCall)).
Variable tool_node : nat → AgentState → exc + list BaseMessage.
Variable recursion_limit : nat.
Variable GraphRecursionError : exc.

Local Abbreviation run_from := (run_from llm_with_tools tool_node GraphRecursionError).
Local Abbreviation graph_invoke :=
  (graph_invoke llm_with_tools tool_node recursion_limit GraphRecursionError).
Local Abbreviation process_request :=
  (process_request llm_with_tools tool_node recursion_limit GraphRecursionError).
Local Abbreviation _call_agent := (_call_agent llm_with_tools).

(** ** The final output *)

Lemma ai_with_content_true msg :
  is_AIMessage msg && truthy_str (content msg) = true ↔ ai_with_content msg.
Proof.
  split.
  - destruct msg as [|c tcs| |]; simpl; try done.
    destruct c; [done|]. intros _. by eexists _, _.
  - intros (c & tcs & -> & Hc). simpl. by destruct c.
Qed.

Lemma first_ai_content_is_final_output (msgs : list BaseMessage) :
  is_final_output msgs (default "No response generated" (first_ai_content (reverse msgs))).
Proof.
  induction msgs as [|msg msgs IH] using rev_ind.
  { right. by split. }
  rewrite reverse_snoc. simpl.
  destruct (is_AIMessage msg && truthy_str (content msg)) eqn:Hmsg.
  - apply ai_with_content_true in Hmsg as (c & tcs & -> & Hc).
    left. exists msgs, c, tcs, []. by repeat split.
  - assert (¬ ai_with_content msg) as Hno.
    { intros H%ai_with_content_true. congruence. }
    destruct IH as [(pre & c & tcs & post & -> & Hc & -> & Hpost) | [Hnone ->]].
    + left. exists pre, c, tcs, (post ++ [msg]). repeat split; try done.
      * by rewrite <-app_assoc.
      * apply Forall_app. by split; [|constructor].
    + right. split; [|done]. apply Forall_app. by split; [|constructor].
Qed.

(** C5. process_request never propagates an exception.  If running the graph
    raises, it returns success False, final_output "Error processing request: "
    followed by the error text, the empty list of messages and the video_uri
    it was given; otherwise it returns success True, with final_output the
    content of the last AIMessage that has non-empty content, or "No response
    generated" when there is none. *)
Theorem process_request_never_raises
    (user_input : string) (video_uri : option string) (thread_id : string) (w : World) :
  let initial_state :=
    {| messages := Some [HumanMessage user_input]; current_video_uri := video_uri |} in
  ∃ response,
    (process_request user_input video_uri thread_id w).1 = inr response
    ∧ match (graph_invoke initial_state thread_id w).1 with
      | inl e =>
          response = {| final_output := "Error processing request: " +:+ e;
                        response_messages := [];
                        response_video_uri := video_uri;
                        success := false |}
      | inr final_state =>
          success response = true
          ∧ is_final_output (default [] (messages final_state)) (final_output response)
          ∧ response_messages response = default [] (messages final_state)
          ∧ response_video_uri response = current_video_uri final_state
      end.
Proof.
  intros initial_state.
  unfold process_request, Agent.process_request, try_except, mbind, M_bind, bind.
  fold initial_state.
  destruct (graph_invoke initial_state thread_id w) as [[e|final_state] w']; simpl.
  - by eexists.
  - eexists. split; [done|]. simpl.
    split; [done|]. split; [|done]. apply first_ai_content_is_final_output.
Qed.

End Requests.

(** * The conversation memory is scoped by thread *)

Create HintDb keeps.

Section Threads.

Variable llm_with_tools : nat → list BaseMessage → exc + (string * option (list ToolCall)).
Variable tool_node : nat → AgentState → exc + list BaseMessage.
Variable recursion_limit : nat.
Variable GraphRecursionError : exc.

Local Abbreviation run_from := (run_from llm_with_tools tool_node GraphRecursionError).
Local Abbreviation graph_invoke :=
  (graph_invoke llm_with_tools tool_node recursion_limit GraphRecursionError).
Local Abbreviation process_request :=
  (process_request llm_with_tools tool_node recursion_limit GraphRecursionError).
Local Abbreviation _call_agent := (_call_agent llm_with_tools).
Local Abbreviation tool_node_invoke := (tool_node_invoke tool_node).
Local Abbreviation serve :=
  (serve llm_with_tools tool_node recursion_limit GraphRecursionError).

(** ** Which computations touch the memory *)

Lemma keeps_memory_ret {A} (a : A) : keeps_memory (mret a).
Proof. done. Qed.

Lemma keeps_memory_raise {A} (e : exc) : keeps_memory (raise (A:=A) e).
Proof. done. Qed.

Lemma keeps_memory_lift {A} (r : exc + A) : keeps_memory (lift r).
Proof. done. Qed.

Lemma keeps_memory_get : keeps_memory (get (W:=World)).
Proof. done. Qed.

Lemma keeps_memory_advance_clock : keeps_memory (modify advance_clock).
Proof. done. Qed.

Lemma keeps_memory_bind {A B} (m : M World A) (k : A → M World B) :
  keeps_memory m → (∀ a, keeps_memory (k a)) → keeps_memory (m ≫= k).
Proof.
  intros Hm Hk w. unfold mbind, M_bind, bind. specialize (Hm w).
  destruct (m w) as [[e|a] w']; simpl in *; [done|]. by rewrite Hk.
Qed.

Lemma keeps_memory_try_except {A} (body : M World A) (handler : exc → M World A) :
  keeps_memory body → (∀ e, keeps_memory (handler e)) → keeps_memory (try_except body handler).
Proof.
  intros Hm Hk w. unfold try_except. specialize (Hm w).
  destruct (body w) as [[e|a] w']; simpl in *; [|done]. by rewrite Hk.
Qed.

Lemma keeps_thread_bind {A B} t (m : M World A) (k : A → M World B) :
  keeps_thread t m → (∀ a, keeps_thread t (k a)) → keeps_thread t (m ≫= k).
Proof.
  intros Hm Hk w. unfold mbind, M_bind, bind. specialize (Hm w).
  destruct (m w) as [[e|a] w']; simpl in *; [done|]. by rewrite Hk.
Qed.

Lemma keeps_thread_try_except {A} t (body : M World A) (handler : exc → M World A) :
  keeps_thread t body → (∀ e, keeps_thread t (handler e)) →
  keeps_thread t (try_except body handler).
Proof.
  intros Hm Hk w. unfold try_except. specialize (Hm w).
  destruct (body w) as [[e|a] w']; simpl in *; [|done]. by rewrite Hk.
Qed.

Lemma keeps_memory_thread {A} t (m : M World A) : keeps_memory m → keeps_thread t m.
Proof. intros Hm w. by rewrite Hm. Qed.

Lemma keeps_thread_put_checkpoint t thread_id state :
  thread_id ≠ t → keeps_thread t (put_checkpoint thread_id state).
Proof. intros Hne w. simpl. by rewrite lookup_insert_ne. Qed.

Local Hint Resolve keeps_memory_ret keeps_memory_raise keeps_memory_lift keeps_memory_get
  keeps_memory_advance_clock keeps_memory_bind keeps_memory_try_except : keeps.

Lemma keeps_memory_call_agent state : keeps_memory (_call_agent state).
Proof.
  unfold _call_agent, Agent._call_agent, llm_invoke, tick.
  destruct (messages state); auto 10 with keeps.
Qed.

Lemma keeps_memory_tool_node_invoke state : keeps_memory (tool_node_invoke state).
Proof. unfold tool_node_invoke, Agent.tool_node_invoke, tick. auto 10 with keeps. Qed.

Local Hint Resolve keeps_memory_thread keeps_memory_call_agent keeps_memory_tool_node_invoke
  keeps_thread_bind keeps_thread_try_except keeps_thread_put_checkpoint : keeps.

(** A run under [thread_id] leaves every other thread alone. *)
Lemma keeps_thread_run_from t fuel n thread_id state :
  thread_id ≠ t → keeps_thread t (run_from fuel n thread_id state).
Proof.
  intros Hne. revert n state.
  induction fuel as [|fuel IH]; intros [] state; simpl; auto with keeps.
  apply keeps_thread_bind; [auto with keeps|]. intros update.
  apply keeps_thread_bind; [auto with keeps|]. intros _.
  destruct (conditional_edges !! _); auto with keeps.
Qed.

Lemma keeps_thread_graph_invoke t input thread_id :
  thread_id ≠ t → keeps_thread t (graph_invoke input thread_id).
Proof.
  intros Hne. unfold graph_invoke, Agent.graph_invoke.
  apply keeps_thread_bind; [auto with keeps|]. intros w.
  apply keeps_thread_bind; [auto with keeps|]. intros _.
  by apply keeps_thread_run_from.
Qed.

Lemma keeps_thread_process_request t user_input video_uri thread_id :
  thread_id ≠ t → keeps_thread t (process_request user_input video_uri thread_id).
Proof.
  intros Hne. unfold process_request, Agent.process_request.
  apply keeps_thread_try_except; [|auto with keeps].
  apply keeps_thread_bind; [by apply keeps_thread_graph_invoke | auto with keeps].
Qed.

(** ** What a run adds to its own thread *)

Lemma thread_messages_lookup w t state :
  memory w !! t = Some state → thread_messages w t = default [] (messages state).
Proof. unfold thread_messages. by intros ->. Qed.

Lemma run_from_extends fuel n thread_id state w :
  memory w !! thread_id = Some state →
  ∃ more,
    thread_messages (run_from fuel n thread_id state w).2 thread_id
    = default [] (messages state) ++ more.
Proof.
  revert n state w. induction fuel as [|fuel IH]; intros n state w Hw.
  { destruct n; simpl; exists []; rewrite app_nil_r; by apply thread_messages_lookup. }
  destruct n; simpl; [| |exists []; rewrite app_nil_r; by apply thread_messages_lookup].
  - unfold mbind, M_bind, bind at 1.
    pose proof (keeps_memory_call_agent state w) as Hmem.
    destruct (_call_agent state w) as [[e|update] w1]; simpl in *.
    { exists []. rewrite app_nil_r. apply thread_messages_lookup. by rewrite Hmem. }
    unfold bind at 1. simpl.
    set (state' := apply_update state update).
    set (w2 := set_memory _ w1).
    assert (memory w2 !! thread_id = Some state') as Hw2 by apply lookup_insert_eq.
    destruct (conditional_edges !! _) as [next|].
    + destruct (IH next state' w2 Hw2) as [more Hmore].
      exists (update ++ more). rewrite Hmore. simpl. unfold add_messages.
      by rewrite app_assoc.
    + exists update. simpl. by rewrite (thread_messages_lookup _ _ _ Hw2).
  - unfold mbind, M_bind, bind at 1.
    pose proof (keeps_memory_tool_node_invoke state w) as Hmem.
    destruct (tool_node_invoke state w) as [[e|update] w1]; simpl in *.
    { exists []. rewrite app_nil_r. apply thread_messages_lookup. by rewrite Hmem. }
    unfold bind at 1. simpl.
    set (state' := apply_update state update).
    set (w2 := set_memory _ w1).
    assert (memory w2 !! thread_id = Some state') as Hw2 by apply lookup_insert_eq.
    destruct (IH agent state' w2 Hw2) as [more Hmore].
    exists (update ++ more). rewrite Hmore. simpl. unfold add_messages.
    by rewrite app_assoc.
Qed.

Lemma process_request_world user_input video_uri thread_id w :
  (process_request user_input video_uri thread_id w).2
  = (graph_invoke {| messages := Some [HumanMessage user_input];
                     current_video_uri := video_uri |} thread_id w).2.
Proof.
  unfold process_request, Agent.process_request, try_except, mbind, M_bind, bind.
  by destruct (graph_invoke _ thread_id w) as [[e|final_state] w'].
Qed.

Lemma process_request_accumulates user_input video_uri thread_id w :
  ∃ more,
    thread_messages (process_request user_input video_uri thread_id w).2 thread_id
    = thread_messages w thread_id ++ HumanMessage user_input :: more.
Proof.
  rewrite process_request_world.
  unfold graph_invoke, Agent.graph_invoke, mbind, M_bind, bind. simpl.
  match goal with
  | |- context [Agent.run_from _ _ _ _ _ _ ?state ?w'] =>
      destruct (run_from_extends recursion_limit agent thread_id state w') as [more Hmore];
        [apply lookup_insert_eq|]
  end.
  exists more. rewrite Hmore. simpl. unfold add_messages, thread_messages.
  by rewrite <-app_assoc.
Qed.

Lemma get_conversation_history_reads t w :
  get_conversation_history t w = (inr (history_of (thread_messages w t)), w).
Proof.
  unfold get_conversation_history, graph_get_state, try_except, mbind, M_bind, bind,
    thread_messages. simpl.
  by destruct (memory w !! t).
Qed.

(** Over any sequence of calls, what a thread persists is what it had,
    followed by one chunk for each call made under its id, in order, each
    starting with the user's message of that call. *)
Lemma serve_accumulates_per_thread calls t w :
  ∃ chunks,
    Forall2 (λ call chunk, ∃ more, chunk = HumanMessage call.1.1 :: more)
            (filter (λ call, call.2 = t) calls) chunks
    ∧ thread_messages (serve calls w) t = thread_messages w t ++ concat chunks.
Proof.
  revert w. induction calls as [|[[user_input video_uri] thread_id] calls IH]; intros w.
  { exists []. split; [constructor|]. simpl. by rewrite app_nil_r. }
  unfold serve, Spec.serve. simpl.
  destruct (IH (process_request user_input video_uri thread_id w).2) as (chunks & Hchunks & Hserve).
  unfold serve, Spec.serve in Hserve. rewrite Hserve.
  destruct (decide (thread_id = t)) as [->|Hne].
  - destruct (process_request_accumulates user_input video_uri t w) as [more Hmore].
    exists ((HumanMessage user_input :: more) :: chunks). split.
    + rewrite filter_cons_True by done. constructor; [by exists more | done].
    + rewrite Hmore. simpl. by rewrite <-app_assoc.
  - exists chunks. split.
    + by rewrite filter_cons_False.
    + unfold thread_messages. by rewrite keeps_thread_process_request.
Qed.

(** C3. The persisted conversation history is scoped by thread id.  For
    distinct thread ids t1 and t2, a call of process_request under t1 leaves
    the persisted state of t2 unchanged, so get_conversation_history(t2)
    returns what it returned before: the entries of the messages persisted
    under t2.  What the call adds, starting with the user's message, it adds
    to the messages persisted under t1; so after any sequence of calls the
    history of t2 shows what t2 had, followed by the messages of the calls
    made under t2. *)
Theorem history_scoped_by_thread
    (user_input : string) (video_uri : option string) (t1 t2 : string) (w : World) :
  t1 ≠ t2 →
  let w' := (process_request user_input video_uri t1 w).2 in
  memory w' !! t2 = memory w !! t2
  ∧ get_conversation_history t2 w' = (inr (history_of (thread_messages w t2)), w')
  ∧ (get_conversation_history t2 w').1 = (get_conversation_history t2 w).1
  ∧ (∃ more, thread_messages w' t1 = thread_messages w t1 ++ HumanMessage user_input :: more)
  ∧ ∀ calls w0,
      ∃ chunks,
        Forall2 (λ call chunk, ∃ more, chunk = HumanMessage call.1.1 :: more)
                (filter (λ call, call.2 = t2) calls) chunks
        ∧ (get_conversation_history t2 (serve calls w0)).1
          = inr (history_of (thread_messages w0 t2 ++ concat chunks)).
Proof.
  intros Hne w'.
  assert (memory w' !! t2 = memory w !! t2) as Hframe
    by by apply keeps_thread_process_request.
  assert (thread_messages w' t2 = thread_messages w t2) as Hsame
    by (unfold thread_messages; by rewrite Hframe).
  split; [done|]. rewrite !get_conversation_history_reads, Hsame.
  split; [done|]. split; [done|]. split; [apply process_request_accumulates|].
  intros calls w0.
  destruct (serve_accumulates_per_thread calls t2 w0) as (chunks & Hchunks & Hserve).
  exists chunks. split; [done|]. by rewrite get_conversation_history_reads, Hserve.
Qed.

End Threads.

Lemma history_scoped_by_thread_witness :
  let w' := (process_request Scenario.llm Scenario.tool_node Scenario.recursion_limit
               Scenario.GraphRecursionError "Trim the first five seconds"
               (Some "s3://in/a.mp4") "alice" Scenario.bob_world).2 in
  memory w' !! "bob" = memory Scenario.bob_world !! "bob"
  ∧ get_conversation_history "bob" w'
    = (inr (history_of (thread_messages Scenario.bob_world "bob")), w')
  ∧ (get_conversation_history "bob" w').1 = (get_conversation_history "bob" Scenario.bob_world).1
  ∧ (∃ more, thread_messages w' "alice"
             = thread_messages Scenario.bob_world "alice"
               ++ HumanMessage "Trim the first five seconds" :: more)
  ∧ ∀ calls w0,
      ∃ chunks,
        Forall2 (λ call chunk, ∃ more, chunk = HumanMessage call.1.1 :: more)
                (filter (λ call, call.2 = "bob") calls) chunks
        ∧ (get_conversation_history "bob"
             (serve Scenario.llm Scenario.tool_node Scenario.recursion_limit
                Scenario.GraphRecursionError calls w0)).1
          = inr (history_of (thread_messages w0 "bob" ++ concat chunks)).
Proof.
  apply (history_scoped_by_thread Scenario.llm Scenario.tool_node Scenario.recursion_limit
           Scenario.GraphRecursionError "Trim the first five seconds"
           (Some "s3://in/a.mp4") "alice" "bob" Scenario.bob_world).
  discriminate.
Defined.

(** * The agent on a concrete run *)

Section Runs.

Local Abbreviation run llm limit :=
  (process_request llm Scenario.tool_node limit Scenario.GraphRecursionError
     "Trim the first five seconds" (Some "s3://in/a.mp4") "alice" Scenario.bob_world).

(** The model asks for a tool, reads its result and answers. *)
Example process_request_answers :
  match (run Scenario.llm Scenario.recursion_limit).1 with
  | inr response =>
      final_output response = "Trimmed the video."
      ∧ success response = true
      ∧ content <$> response_messages response
        = ["Trim the first five seconds"; ""; "done"; "Trimmed the video."]
  | inl _ => False
  end.
Proof. by vm_compute. Qed.

(** The model cannot be reached: the error is reported, and the user's
    message is what the thread keeps. *)
Example process_request_model_down :
  (run Scenario.llm_down Scenario.recursion_limit).1
  = inr {| final_output := "Error processing request: Connection error.";
           response_messages := [];
           response_video_uri := Some "s3://in/a.mp4";
           success := false |}
  ∧ thread_messages (run Scenario.llm_down Scenario.recursion_limit).2 "alice"
    = [HumanMessage "Trim the first five seconds"].
Proof. by vm_compute. Qed.

(** A model that asks for tools forever runs into the recursion limit. *)
Example process_request_recursion_limit :
  (run (λ _ _, inr ("", Some [Scenario.trim_call])) 4).1
  = inr {| final_output := "Error processing request: Recursion limit of 25 reached";
           response_messages := [];
           response_video_uri := Some "s3://in/a.mp4";
           success := false |}.
Proof. by vm_compute. Qed.

Example rstrip_examples :
  PyStr.rstrip "s3://out/dir///" "/" = "s3://out/dir"
  ∧ PyStr.rstrip "///" "/" = ""
  ∧ PyStr.rstrip "a/b" "/" = "a/b".
Proof. done. Qed.

Example history_entries :
  (λ entry, (entry !! "type", entry !! "content"))
    <$> history_of [ HumanMessage "hello"; AIMessage "" (Some []);
                     AIMessage "" (Some [Scenario.trim_call]); SystemMessage "prompt";
                     ToolMessage "done" "call_1" ]
  = [ (Some (Some "human"), Some (Some "hello"));
      (Some (Some "ai"), Some (Some " [Called tools: trim_video]"));
      (Some (Some "tool"), Some (Some "done")) ].
Proof. by vm_compute. Qed.

End Runs.

(** * Further properties of the tools *)

Import Init Clear Main Vocabulary.

Section ExportDestination.

Lemma replicate_add n m c :
  PyStr.replicate (n + m) c = PyStr.replicate n c +:+ PyStr.replicate m c.
Proof. induction n as [|n IH]; [done|]. simpl. by rewrite IH. Qed.

Lemma rstrip_app_slashes s n :
  PyStr.rstrip (s +:+ PyStr.replicate n "/"%char) "/" = PyStr.rstrip s "/".
Proof.
  apply (trailing_slashes_removed_unique (s +:+ PyStr.replicate n "/"%char));
    [apply rstrip_spec|].
  destruct (rstrip_spec s) as [Hno [m Hm]]. split; [done|].
  exists (m + n). rewrite replicate_add, <-string_app_assoc. by rewrite <-Hm.
Qed.

(** X1. However many '/' end the destination, export_video returns the same
    result: trailing slashes of output_s3_uri never show in the media path. *)
Theorem export_video_ignores_trailing_slashes
    (video_s3_uri output_format output_s3_uri : string) (n : nat) :
  export_video video_s3_uri output_format
    (output_s3_uri +:+ PyStr.replicate n "/"%char)
  = export_video video_s3_uri output_format output_s3_uri.
Proof. unfold export_video. by rewrite rstrip_app_slashes. Qed.

Lemma rstrip_empty_iff s :
  PyStr.rstrip s "/" = "" ↔ ∃ n, s = PyStr.replicate n "/"%char.
Proof.
  split.
  - intros Hs. destruct (rstrip_trailing_slashes s) as [n Hn]. exists n.
    by rewrite Hs in Hn.
  - intros [n ->]. exact (rstrip_app_slashes "" n).
Qed.

(** X2. A destination that is empty or made of '/' only is exported to the root:
    the media is "/exported_video." followed by the format exactly then. *)
Theorem export_video_to_root (video_s3_uri output_format output_s3_uri : string) :
  export_video video_s3_uri output_format output_s3_uri !! "media"
    = Some (PStr ("/exported_video." +:+ output_format))
  ↔ ∃ n, output_s3_uri = PyStr.replicate n "/"%char.
Proof.
  rewrite <-rstrip_empty_iff. unfold export_video.
  rewrite lookup_insert_ne, lookup_singleton_eq by done. split.
  - intros [= Heq]. by apply (string_app_inj_r _ "" _) in Heq.
  - by intros ->.
Qed.

End ExportDestination.

(** * Further properties of the agent *)

Section AgentNode.

Variable llm_with_tools : nat → list BaseMessage → exc + (string * option (list ToolCall)).

Local Abbreviation _call_agent := (_call_agent llm_with_tools).

(** What [_call_agent] sends to the model for a state with messages. *)
Lemma call_agent_sends state msgs w :
  messages state = Some msgs →
  _call_agent state w =
    ( match llm_with_tools (clock w)
              (_create_system_message (effective_uri state)
                 :: filter (λ msg, is_SystemMessage msg = false) msgs) with
      | inl e => inl e
      | inr r => inr [AIMessage r.1 r.2]
      end,
      advance_clock w ).
Proof.
  intros Hmsgs. unfold _call_agent, Agent._call_agent, effective_uri. rewrite Hmsgs.
  unfold llm_invoke, tick, try_except, mbind, M_bind, bind, lift. simpl.
  assert (∀ uri : option string,
            match uri with
            | Some uri' => if truthy_str uri' then uri' else "No video URI provided"
            | None => "No video URI provided"
            end
            = match uri with
              | Some (String c uri') => String c uri'
              | _ => "No video URI provided"
              end) as -> by (by intros [[|??]|]).
  by destruct (llm_with_tools _ _).
Qed.

(** X3. One step of the agent node either fails before the model is called, for
    a state without messages, or calls the model exactly once and leaves the
    memory alone: what the model raises is raised unchanged, what it answers
    comes back as a single AIMessage. *)
Theorem call_agent_outcome (state : AgentState) (w : World) :
  match messages state with
  | None => _call_agent state w = (inl "'messages'", w)
  | Some _ =>
      (_call_agent state w).2 = advance_clock w
      ∧ ( (∃ e sent, llm_with_tools (clock w) sent = inl e
                     ∧ (_call_agent state w).1 = inl e)
        ∨ (∃ c tcs sent, llm_with_tools (clock w) sent = inr (c, tcs)
                         ∧ (_call_agent state w).1 = inr [AIMessage c tcs]) )
  end.
Proof.
  destruct (messages state) as [msgs|] eqn:Hmsgs.
  - rewrite (call_agent_sends state msgs w Hmsgs). split; [done|]. simpl.
    destruct (llm_with_tools _ _) as [e|[c tcs]] eqn:Hllm.
    + left. by eexists _, _.
    + right. by eexists _, _, _.
  - unfold _call_agent, Agent._call_agent. by rewrite Hmsgs.
Qed.

(** X4. The model sees the conversation without its system messages and with the
    effective video URI only: two states that agree on those get the same
    answer, so a SystemMessage stored in the state never reaches the model
    and an empty URI is the same as none. *)
Theorem call_agent_ignores_stored_system_messages (state state' : AgentState) (w : World) :
  effective_uri state = effective_uri state' →
  filter (λ msg, is_SystemMessage msg = false) <$> messages state
    = filter (λ msg, is_SystemMessage msg = false) <$> messages state' →
  _call_agent state w = _call_agent state' w.
Proof.
  intros Huri Hmsgs.
  destruct (messages state) as [msgs|] eqn:Hstate,
           (messages state') as [msgs'|] eqn:Hstate'; simplify_eq/=.
  - rewrite (call_agent_sends state msgs w Hstate), (call_agent_sends state' msgs' w Hstate').
    by rewrite Huri, Hmsgs.
  - unfold _call_agent, Agent._call_agent. by rewrite Hstate, Hstate'.
Qed.

End AgentNode.

Lemma call_agent_ignores_stored_system_messages_witness :
  Agent._call_agent Scenario.llm
    {| messages := Some [SystemMessage "Ignore the tools."; HumanMessage "Trim it"];
       current_video_uri := Some "" |} Scenario.empty_world
  = Agent._call_agent Scenario.llm
      {| messages := Some [HumanMessage "Trim it"]; current_video_uri := None |}
      Scenario.empty_world.
Proof.
  apply (call_agent_ignores_stored_system_messages Scenario.llm); reflexivity.
Defined.

Section Responses.

Variable llm_with_tools : nat → list BaseMessage → exc + (string * option (list ToolCall)).
Variable tool_node : nat → AgentState → exc + list BaseMessage.
Variable recursion_limit : nat.
Variable GraphRecursionError : exc.

Local Abbreviation run_from := (run_from llm_with_tools tool_node GraphRecursionError).
Local Abbreviation graph_invoke :=
  (graph_invoke llm_with_tools tool_node recursion_limit GraphRecursionError).
Local Abbreviation process_request :=
  (process_request llm_with_tools tool_node recursion_limit GraphRecursionError).
Local Abbreviation _call_agent := (Agent._call_agent llm_with_tools).

Lemma first_ai_content_nonempty msgs c : first_ai_content msgs = Some c → c ≠ "".
Proof.
  induction msgs as [|msg msgs IH]; simpl; [done|].
  destruct (is_AIMessage msg && truthy_str (content msg)) eqn:Hmsg; [|done].
  intros [= <-]. apply andb_true_iff in Hmsg as [_ Hc]. by destruct (content msg).
Qed.

(** X5. What process_request returns as final_output is never the empty string,
    whether the run succeeds or fails. *)
Theorem final_output_never_empty
    (user_input : string) (video_uri : option string) (thread_id : string) (w : World) :
  ∃ response,
    (process_request user_input video_uri thread_id w).1 = inr response
    ∧ final_output response ≠ "".
Proof.
  unfold process_request, Agent.process_request, try_except, mbind, M_bind, bind.
  destruct (graph_invoke _ thread_id w) as [[e|final_state] w']; simpl.
  - eexists. split; [done|]. done.
  - eexists. split; [done|]. simpl.
    destruct (first_ai_content _) as [c|] eqn:Hc; simpl; [|done].
    by eapply first_ai_content_nonempty.
Qed.

Lemma call_agent_returns_ai state w update w' :
  _call_agent state w = (inr update, w') → ∃ c tcs, update = [AIMessage c tcs].
Proof.
  destruct (messages state) as [msgs|] eqn:Hmsgs.
  - rewrite (call_agent_sends _ state msgs w Hmsgs).
    destruct (llm_with_tools _ _) as [e|[c tcs]]; [done|]. intros [= <- _]. by eexists _, _.
  - unfold _call_agent, Agent._call_agent. by rewrite Hmsgs.
Qed.

(** A run that returns has stopped at the conditional edge, right after an
    answer of the model. *)
Lemma run_from_returns_after_answer fuel n thread_id state w final w' :
  n ≠ END →
  run_from fuel n thread_id state w = (inr final, w') →
  _should_continue final = "end"
  ∧ ∃ c tcs, last (default [] (messages final)) = Some (AIMessage c tcs).
Proof.
  revert n state w. induction fuel as [|fuel IH]; intros n state w Hn.
  { by destruct n. }
  destruct n; [| |done]; simpl; unfold mbind, M_bind, bind at 1.
  - destruct (_call_agent state w) as [[e|update] w1] eqn:Hcall; [done|].
    destruct (call_agent_returns_ai _ _ _ _ Hcall) as (c & tcs & ->).
    unfold bind at 1. simpl.
    set (state' := apply_update state [AIMessage c tcs]).
    destruct (should_continue_cases state') as [Hroute|Hroute]; rewrite Hroute.
    + change (conditional_edges !! "continue") with (Some tools). by apply IH.
    + change (conditional_edges !! "end") with (Some END).
      destruct fuel; simpl; intros [= <- _]; (split; [done|]);
        exists c, tcs; simpl; unfold add_messages; by rewrite last_snoc.
  - destruct (tool_node_invoke tool_node state w) as [[e|update] w1]; [done|].
    unfold bind at 1. simpl. by apply IH.
Qed.

(** X6. A successful response ends with a message of the model that asks for no
    tool: never with a pending tool call or a bare tool result.  When that
    message has content, it is the final_output. *)
Theorem successful_response_ends_with_answer
    (user_input : string) (video_uri : option string) (thread_id : string) (w : World)
    (response : Response) :
  (process_request user_input video_uri thread_id w).1 = inr response →
  success response = true →
  ∃ c tcs,
    last (response_messages response) = Some (AIMessage c tcs)
    ∧ (tcs = None ∨ tcs = Some [])
    ∧ (c ≠ "" → final_output response = c).
Proof.
  unfold process_request, Agent.process_request, try_except, mbind, M_bind, bind.
  destruct (graph_invoke _ thread_id w) as [[e|final] w'] eqn:Hrun; simpl;
    intros [= <-]; simpl; [done|]. intros _.
  unfold graph_invoke, Agent.graph_invoke, mbind, M_bind, bind in Hrun. simpl in Hrun.
  apply run_from_returns_after_answer in Hrun as [Hend (c & tcs & Hlast)]; [|done].
  exists c, tcs. split; [done|]. split.
  - destruct tcs as [[|tc tcs]|]; auto.
    apply last_Some in Hlast as [msgs Hmsgs].
    assert (_should_continue final = "continue") as Hcontinue; [|congruence].
    apply should_continue_continue. exists msgs, c, (tc :: tcs). split; [|done].
    destruct (messages final) as [l|]; simpl in *; [by subst|by destruct msgs].
  - intros Hc. apply last_Some in Hlast as [msgs ->].
    rewrite reverse_snoc. simpl. by destruct c.
Qed.

End Responses.

Lemma successful_response_ends_with_answer_witness :
  ∃ c tcs,
    last [ HumanMessage "hello"; AIMessage "Hi!" (Some []);
           HumanMessage "Trim the first five seconds";
           AIMessage "" (Some [Scenario.trim_call]); ToolMessage "done" "call_1";
           AIMessage "Trimmed the video." (Some []) ]
    = Some (AIMessage c tcs)
    ∧ (tcs = None ∨ tcs = Some [])
    ∧ (c ≠ "" → "Trimmed the video." = c).
Proof.
  exact (successful_response_ends_with_answer Scenario.llm Scenario.tool_node
           Scenario.recursion_limit Scenario.GraphRecursionError
           "Trim the first five seconds" (Some "s3://in/a.mp4") "bob" Scenario.bob_world
           _ eq_refl eq_refl).
Defined.

(** * Further properties of the conversation history *)

Section History.

Lemma history_of_concat msgs : history_of msgs = concat (history_entry <$> msgs).
Proof.
  unfold history_of.
  assert (∀ acc, foldl (λ history msg, history ++ history_entry msg) acc msgs
                 = acc ++ concat (history_entry <$> msgs)) as Hfold; [|by rewrite Hfold].
  induction msgs as [|msg msgs IH]; intros acc; simpl.
  - by rewrite app_nil_r.
  - by rewrite IH, <-app_assoc.
Qed.

Lemma history_of_app msgs msgs' :
  history_of (msgs ++ msgs') = history_of msgs ++ history_of msgs'.
Proof. by rewrite !history_of_concat, fmap_app, concat_app. Qed.

Lemma truthy_str_app s r : truthy_str r = true → truthy_str (s +:+ r) = true.
Proof. by destruct s, r. Qed.

Lemma history_entry_visible msg :
  if visible msg then ∃ entry, history_entry msg = [entry] else history_entry msg = [].
Proof.
  destruct msg as [c|c [[|tc tcs]|]|c|c id]; simpl; try by eexists.
  - destruct c; simpl; [done|by eexists].
  - rewrite truthy_str_app, orb_true_r by done. by eexists.
  - destruct c; simpl; [done|by eexists].
Qed.

Lemma history_of_filter_visible msgs :
  history_of msgs = history_of (filter (λ msg, visible msg = true) msgs)
  ∧ length (history_of msgs) = length (filter (λ msg, visible msg = true) msgs).
Proof.
  rewrite !history_of_concat.
  induction msgs as [|msg msgs [IH1 IH2]]; [done|].
  rewrite filter_cons. pose proof (history_entry_visible msg) as Hmsg.
  destruct (visible msg) eqn:Hvisible.
  - destruct Hmsg as [entry Hentry]. rewrite decide_True by done.
    rewrite !fmap_cons, !concat_cons, Hentry. simpl. split; by f_equal.
  - rewrite decide_False by done.
    rewrite !fmap_cons, !concat_cons, Hmsg. by split.
Qed.

(** X7. The history is built message by message: the history of a conversation
    followed by another is the history of the first followed by that of the
    second, and it has exactly one entry for each visible message (system
    messages and empty answers without tool calls leave no entry). *)
Theorem history_follows_visible_messages (msgs msgs' : list BaseMessage) :
  history_of (msgs ++ msgs') = history_of msgs ++ history_of msgs'
  ∧ history_of msgs = history_of (filter (λ msg, visible msg = true) msgs)
  ∧ length (history_of msgs) = length (filter (λ msg, visible msg = true) msgs)
  ∧ length (history_of msgs) ≤ length msgs.
Proof.
  split; [apply history_of_app|].
  destruct (history_of_filter_visible msgs) as [Hfilter Hlength].
  split; [done|]. split; [done|]. rewrite Hlength. apply length_filter.
Qed.

Lemma history_entry_well_formed msg : Forall well_formed_entry (history_entry msg).
Proof.
  destruct msg as [c|c tcs|c|c id]; simpl.
  - repeat constructor. exists c. split; [done|]. left. split; [done|].
    rewrite !dom_insert_L, dom_singleton_L. set_solver.
  - match goal with |- Forall _ (if truthy_str ?s then _ else _) => set (shown := s) end.
    destruct shown as [|a shown']; simpl; [constructor|].
    repeat constructor. exists (String a shown'). split; [done|]. right. left.
    split; [done|]. split; [done|].
    rewrite !dom_insert_L, dom_singleton_L. set_solver.
  - constructor.
  - repeat constructor. exists c. split; [done|]. right. right.
    split; [done|]. split; [by exists id|].
    rewrite !dom_insert_L, dom_singleton_L. set_solver.
Qed.

(** X8. Every entry of a history is well formed: its type is "human", "ai" or
    "tool", its content is a string, non-empty for "ai", its timestamp is
    None, and it carries a tool_call_id exactly when it is a "tool" entry. *)
Theorem history_entries_well_formed (msgs : list BaseMessage) :
  Forall well_formed_entry (history_of msgs).
Proof.
  rewrite history_of_concat. apply Forall_concat, Forall_fmap, Forall_forall.
  intros msg _. apply history_entry_well_formed.
Qed.

(** X9. get_conversation_history only reads: it never raises and leaves the
    memory as it was.  For a thread that has no checkpoint, or whose state
    has no messages, it returns the empty list. *)
Theorem get_conversation_history_reads_only (thread_id : string) (w : World) :
  (∃ history, get_conversation_history thread_id w = (inr history, w))
  ∧ (memory w !! thread_id ≫= messages = None →
     get_conversation_history thread_id w = (inr [], w)).
Proof.
  rewrite get_conversation_history_reads. split; [by eexists|].
  unfold thread_messages. by intros ->.
Qed.

Lemma get_conversation_history_reads_only_witness :
  get_conversation_history "nobody" Scenario.bob_world = (inr [], Scenario.bob_world).
Proof.
  apply (proj2 (get_conversation_history_reads_only "nobody" Scenario.bob_world)).
  reflexivity.
Defined.

End History.

Section HistoryOfRequests.

Variable llm_with_tools : nat → list BaseMessage → exc + (string * option (list ToolCall)).
Variable tool_node : nat → AgentState → exc + list BaseMessage.
Variable recursion_limit : nat.
Variable GraphRecursionError : exc.

Local Abbreviation process_request :=
  (process_request llm_with_tools tool_node recursion_limit GraphRecursionError).

(** X10. After a request under a thread, failed or not, the history of the thread
    is what it was, then the entry of the user's message, then the entries of
    what the run added. *)
Theorem request_shows_in_history
    (user_input : string) (video_uri : option string) (thread_id : string) (w : World) :
  let w' := (process_request user_input video_uri thread_id w).2 in
  ∃ before after,
    (get_conversation_history thread_id w).1 = inr before
    ∧ (get_conversation_history thread_id w').1
      = inr (before ++ human_entry user_input :: after).
Proof.
  intros w'.
  destruct (process_request_accumulates llm_with_tools tool_node recursion_limit
              GraphRecursionError user_input video_uri thread_id w) as [more Hmore].
  exists (history_of (thread_messages w thread_id)), (history_of more).
  rewrite !get_conversation_history_reads. split; [done|]. simpl.
  unfold w'. rewrite Hmore.
  change (HumanMessage user_input :: more) with ([HumanMessage user_input] ++ more).
  by rewrite !history_of_app.
Qed.

End HistoryOfRequests.

Section ClearHistory.

Variable update_state_refused : string → option AgentState → option exc.

Local Abbreviation clear_history := (clear_history update_state_refused).

(** X11. clear_history never raises and returns True exactly when the framework
    accepted the update.  Either way it removes nothing: the update is an
    empty list of messages, which the reducer of the state appends to what
    the thread has, so the history of every thread, the cleared one
    included, is afterwards what it was. *)
Theorem clear_history_keeps_messages (thread_id : string) (w : World) :
  let w' := (clear_history thread_id w).2 in
  (∃ accepted,
     (clear_history thread_id w).1 = inr accepted
     ∧ (accepted = true ↔ update_state_refused thread_id (memory w !! thread_id) = None))
  ∧ ∀ t, thread_messages w' t = thread_messages w t
         ∧ (get_conversation_history t w').1 = (get_conversation_history t w).1.
Proof.
  intros w'.
  assert (∀ t, thread_messages w' t = thread_messages w t) as Hsame.
  { intros t. unfold w', clear_history, Clear.clear_history, graph_update_state,
      try_except, mbind, M_bind, bind. simpl.
    destruct (update_state_refused _ _); simpl; [done|].
    unfold thread_messages. simpl.
    destruct (decide (thread_id = t)) as [->|Hne].
    - rewrite lookup_insert_eq. simpl. unfold add_messages. rewrite app_nil_r.
      by destruct (memory w !! t) as [[[msgs|] uri]|].
    - by rewrite lookup_insert_ne. }
  split.
  - unfold clear_history, Clear.clear_history, graph_update_state,
      try_except, mbind, M_bind, bind. simpl.
    destruct (update_state_refused _ _); simpl; eexists; (split; [done|]); done.
  - intros t. split; [done|]. by rewrite !get_conversation_history_reads, Hsame.
Qed.

End ClearHistory.

(** * Creating the agent *)

Section Creation.

Implicit Types openai_api_key langsmith_api_key langsmith_project : option string.
Implicit Types environ : gmap string string.

Lemma truthy_py_or_r a (s : string) : is_Some (py_or a (Some s)).
Proof. unfold py_or. destruct a as [[|]|]; simpl; by eexists. Qed.

Lemma truthy_is_Some a : truthy a = true → ∃ s, a = Some s ∧ s ≠ "".
Proof. destruct a as [[|c s]|]; simpl; try done. intros _. by eexists. Qed.

(** The state of the environment after [__init__], by cases. *)
Lemma init_unfold openai_api_key langsmith_api_key langsmith_project environ :
  let key := py_or openai_api_key (environ !! "OPENAI_API_KEY") in
  let tracing_key := py_or langsmith_api_key (environ !! "LANGSMITH_API_KEY") in
  let project :=
    py_or langsmith_project
      (Some (default "video-editing-agent" (environ !! "LANGSMITH_PROJECT"))) in
  __init__ openai_api_key langsmith_api_key langsmith_project environ =
    if negb (truthy key)
    then (inl "OpenAI API key is required. Set OPENAI_API_KEY environment variable or pass it directly.",
          environ)
    else
      ( inr {| Init.openai_api_key := key; Init.langsmith_api_key := tracing_key;
               Init.langsmith_project := project; agent_tools := _register_tools;
               agent_memory := ∅ |},
        if truthy tracing_key
        then <["LANGCHAIN_PROJECT" := default "" project]>
               (<["LANGCHAIN_API_KEY" := default "" tracing_key]>
                  (<["LANGCHAIN_ENDPOINT" := "https://api.smith.langchain.com"]>
                     (<["LANGCHAIN_TRACING_V2" := "true"]> environ)))
        else environ ).
Proof.
  intros key tracing_key project.
  unfold __init__, getenv, getenv_default, mbind, M_bind, bind. simpl.
  fold key. destruct (truthy key) eqn:Hkey; simpl; [|done].
  fold tracing_key. fold project.
  destruct (truthy tracing_key) eqn:Htracing; simpl; [|done].
  destruct (truthy_is_Some _ Htracing) as (k & -> & _).
  destruct (truthy_py_or_r langsmith_project
              (default "video-editing-agent" (environ !! "LANGSMITH_PROJECT"))) as [p Hp].
  fold project in Hp. rewrite Hp. done.
Qed.

(** X12. __init__ raises its ValueError exactly when neither the argument nor
    OPENAI_API_KEY gives a non-empty key, and then leaves the environment as
    it was; with a key from either, it returns an agent. *)
Theorem init_requires_api_key openai_api_key langsmith_api_key langsmith_project environ :
  let result := __init__ openai_api_key langsmith_api_key langsmith_project environ in
  (truthy openai_api_key = false ∧ truthy (environ !! "OPENAI_API_KEY") = false
   ↔ ∃ e, result.1 = inl e)
  ∧ (∀ e, result.1 = inl e →
       e = "OpenAI API key is required. Set OPENAI_API_KEY environment variable or pass it directly."
       ∧ result.2 = environ).
Proof.
  intros result. unfold result. rewrite init_unfold. unfold py_or.
  destruct (truthy openai_api_key) eqn:Harg; simpl.
  - rewrite Harg. simpl. split; [|done]. split; [by intros [? _]|by intros [e ?]].
  - destruct (truthy (environ !! "OPENAI_API_KEY")) eqn:Henv; simpl.
    + split; [|done]. split; [by intros [_ ?]|by intros [e ?]].
    + split; [|by intros e [= <-]]. split; [by eexists|done].
Qed.

End Creation.

Section Tracing.

Implicit Types openai_api_key langsmith_api_key langsmith_project : option string.
Implicit Types environ : gmap string string.

(** X13. Given an OpenAI key, from the argument or from OPENAI_API_KEY,
    __init__ returns an agent whose LangSmith key is the non-empty argument
    langsmith_api_key, otherwise the value of LANGSMITH_API_KEY, and whose
    project is the non-empty argument langsmith_project, otherwise the value
    of LANGSMITH_PROJECT, otherwise "video-editing-agent".  When that key is
    non-empty, __init__ has set the four tracing variables, to "true", the
    endpoint, that key and that project, and no other variable; when it is
    None or empty, the environment is left as it was. *)
Theorem init_sets_tracing_variables
    openai_api_key langsmith_api_key langsmith_project environ :
  truthy openai_api_key = true ∨ truthy (environ !! "OPENAI_API_KEY") = true →
  let key :=
    if truthy langsmith_api_key then langsmith_api_key
    else environ !! "LANGSMITH_API_KEY" in
  let project :=
    if truthy langsmith_project then langsmith_project
    else Some (default "video-editing-agent" (environ !! "LANGSMITH_PROJECT")) in
  ∃ agent environ',
    __init__ openai_api_key langsmith_api_key langsmith_project environ = (inr agent, environ')
    ∧ Init.langsmith_api_key agent = key
    ∧ Init.langsmith_project agent = project
    ∧ if truthy key
      then environ' !! "LANGCHAIN_TRACING_V2" = Some "true"
           ∧ environ' !! "LANGCHAIN_ENDPOINT" = Some "https://api.smith.langchain.com"
           ∧ environ' !! "LANGCHAIN_API_KEY" = key
           ∧ environ' !! "LANGCHAIN_PROJECT" = project
           ∧ ∀ variable, variable ∉ tracing_variables →
               environ' !! variable = environ !! variable
      else environ' = environ.
Proof.
  intros Hopenai key project. rewrite init_unfold.
  replace (truthy (py_or openai_api_key (environ !! "OPENAI_API_KEY"))) with true
    by (unfold py_or; destruct (truthy openai_api_key) eqn:Harg;
        [by rewrite Harg|by destruct Hopenai]).
  simpl. fold (py_or langsmith_api_key (environ !! "LANGSMITH_API_KEY")) in key.
  fold (py_or langsmith_project
          (Some (default "video-editing-agent" (environ !! "LANGSMITH_PROJECT")))) in project.
  eexists _, _. split; [done|]. split; [done|]. split; [done|].
  fold key project.
  destruct (truthy key) eqn:Htracing; [|done].
  destruct (truthy_is_Some _ Htracing) as (k & -> & _).
  destruct (truthy_py_or_r langsmith_project
              (default "video-editing-agent" (environ !! "LANGSMITH_PROJECT"))) as [q Hq].
  fold project in Hq. rewrite Hq.
  simpl. split; [by simplify_map_eq|]. split; [by simplify_map_eq|].
  split; [by simplify_map_eq|]. split; [by simplify_map_eq|].
  intros variable Hvariable. unfold tracing_variables in Hvariable.
  rewrite !lookup_insert_ne; [done|intros <-; apply Hvariable; repeat constructor..].
Qed.

Lemma init_sets_tracing_variables_witness :
  let environ : gmap string string :=
    <["LANGSMITH_API_KEY" := "ls-from-environment"]> {[ "OPENAI_API_KEY" := "sk-1" ]} in
  ∃ agent environ',
    __init__ None None default_langsmith_project environ = (inr agent, environ')
    ∧ Init.langsmith_api_key agent = Some "ls-from-environment"
    ∧ Init.langsmith_project agent = Some "video-editing-agent"
    ∧ environ' !! "LANGCHAIN_TRACING_V2" = Some "true"
    ∧ environ' !! "LANGCHAIN_ENDPOINT" = Some "https://api.smith.langchain.com"
    ∧ environ' !! "LANGCHAIN_API_KEY" = Some "ls-from-environment"
    ∧ environ' !! "LANGCHAIN_PROJECT" = Some "video-editing-agent"
    ∧ ∀ variable, variable ∉ tracing_variables →
        environ' !! variable = environ !! variable.
Proof.
  intros environ.
  exact (init_sets_tracing_variables None None default_langsmith_project environ
           (or_intror eq_refl)).
Defined.

(** X14. Arguments go before the environment: a non-empty key or project passed
    to __init__ is the one the agent gets.  With the default project,
    "video-editing-agent", the variable LANGSMITH_PROJECT is never used. *)
Theorem init_prefers_arguments
    openai_api_key langsmith_api_key langsmith_project environ agent environ' :
  __init__ openai_api_key langsmith_api_key langsmith_project environ = (inr agent, environ') →
  truthy (Init.openai_api_key agent) = true
  ∧ (truthy openai_api_key = true → Init.openai_api_key agent = openai_api_key)
  ∧ (truthy langsmith_api_key = true → Init.langsmith_api_key agent = langsmith_api_key)
  ∧ (truthy langsmith_project = true → Init.langsmith_project agent = langsmith_project)
  ∧ (langsmith_project = default_langsmith_project →
     Init.langsmith_project agent = Some "video-editing-agent")
  ∧ (truthy openai_api_key = false →
     Init.openai_api_key agent = environ !! "OPENAI_API_KEY")
  ∧ (truthy langsmith_project = false →
     Init.langsmith_project agent
     = Some (default "video-editing-agent" (environ !! "LANGSMITH_PROJECT"))).
Proof.
  rewrite init_unfold.
  destruct (truthy (py_or openai_api_key _)) eqn:Hkey; simpl; [|done].
  intros [= <- _]. simpl. unfold py_or in *.
  repeat split; try (by intros ->).
  by destruct (truthy openai_api_key).
Qed.

Lemma init_prefers_arguments_witness :
  Some "video-editing-agent" = Some "video-editing-agent".
Proof.
  exact (proj1 (proj2 (proj2 (proj2 (proj2
    (init_prefers_arguments (Some "sk-1") None default_langsmith_project
       {[ "LANGSMITH_PROJECT" := "from-the-environment" ]} _ _ eq_refl))))) eq_refl).
Defined.

(** X15. The test of the repository passes in every environment: creating the
    agent with the test key succeeds, and none of the twenty expected tools
    is missing from the registered ones. *)
Theorem test_agent_initialization_passes environ :
  (TestAgent.test_agent_initialization environ).1 = inr (true, ∅)
  ∧ TestAgent.expected_tools = name <$> _register_tools.
Proof.
  split; [|done].
  unfold TestAgent.test_agent_initialization, create_video_editing_agent, try_except,
    mbind, M_bind, bind.
  rewrite init_unfold. simpl. by do 2 f_equal.
Qed.

End Tracing.

(** * The console program *)

Section Text.

Lemma len_app s r : PyText.len (s +:+ r) = PyText.len s + PyText.len r.
Proof.
  induction s as [|c s IH]; [done|]. rewrite string_app_cons. simpl.
  destruct (PyText.is_continuation c); simpl; by rewrite IH.
Qed.

Lemma len_slice_to n s : PyText.len (PyText.slice_to n s) = n `min` PyText.len s.
Proof.
  revert n. induction s as [|c s IH]; intros n; simpl.
  { by rewrite Nat.min_0_r. }
  destruct (PyText.is_continuation c) eqn:Hc; simpl.
  - by rewrite Hc, IH.
  - destruct n as [|n]; simpl; [done|]. by rewrite Hc, IH.
Qed.

Lemma slice_to_all n s : PyText.len s ≤ n → PyText.slice_to n s = s.
Proof.
  revert n. induction s as [|c s IH]; intros n; simpl; [done|].
  destruct (PyText.is_continuation c).
  - intros Hlen. by rewrite IH.
  - destruct n as [|n]; [lia|]. intros Hlen. rewrite IH; [done|lia].
Qed.

(** X16. A line of the printed history shows the content whole when it has at
    most 100 characters, and otherwise its first 100 characters followed by
    "...": never more than 103 characters.  The line is labelled as the
    user's for a "human" entry only; "ai" and "tool" entries are both
    labelled as the agent's. *)
Theorem history_line_truncates (i : nat) (entry : gmap string (option string))
    (type : option string) (text : string) :
  entry !! "type" = Some type →
  entry !! "content" = Some (Some text) →
  ∃ label shown,
    history_line i entry
      = inr (PyText.str_of_nat i +:+ ". " +:+ label +:+ ": " +:+ shown)
    ∧ PyText.len shown ≤ 103
    ∧ (PyText.len text ≤ 100 → shown = text)
    ∧ (100 < PyText.len text →
       shown = PyText.slice_to 100 text +:+ "..." ∧ PyText.len shown = 103)
    ∧ (type = Some "human" → label = "👤 You")
    ∧ (type ≠ Some "human" → label = "🤖 Agent").
Proof.
  intros Htype Hcontent. unfold history_line. rewrite Htype, Hcontent.
  exists (if bool_decide (type = Some "human") then "👤 You" else "🤖 Agent").
  assert (∀ label : string,
            (type = Some "human" → (if bool_decide (type = Some "human")
                                    then "👤 You" else label) = "👤 You")
            ∧ (type ≠ Some "human" → (if bool_decide (type = Some "human")
                                      then "👤 You" else label) = label)) as Hlabel.
  { intros label. split; intros ?;
      [by rewrite bool_decide_eq_true_2|by rewrite bool_decide_eq_false_2]. }
  destruct (decide (100 < PyText.len text)) as [Hlong|Hshort].
  - rewrite (bool_decide_eq_true_2 (100 < PyText.len text)) by done.
    exists (PyText.slice_to 100 text +:+ "...").
    assert (PyText.len (PyText.slice_to 100 text +:+ "...") = 103) as Hlen.
    { rewrite len_app, len_slice_to. change (PyText.len "...") with 3. lia. }
    split; [done|]. split; [lia|]. split; [lia|]. split; [done|]. apply Hlabel.
  - rewrite (bool_decide_eq_false_2 (100 < PyText.len text)) by done.
    exists text.
    split; [done|]. split; [lia|]. split; [done|]. split; [lia|]. apply Hlabel.
Qed.

Lemma history_line_truncates_witness :
  ∃ label shown,
    history_line 2 {[ "type" := Some "tool"; "content" := Some "done";
                      "tool_call_id" := Some "call_1"; "timestamp" := None ]}
      = inr (PyText.str_of_nat 2 +:+ ". " +:+ label +:+ ": " +:+ shown)
    ∧ PyText.len shown ≤ 103
    ∧ (PyText.len "done" ≤ 100 → shown = "done")
    ∧ (100 < PyText.len "done" →
       shown = PyText.slice_to 100 "done" +:+ "..." ∧ PyText.len shown = 103)
    ∧ (Some "tool" = Some "human" → label = "👤 You")
    ∧ (Some "tool" ≠ Some "human" → label = "🤖 Agent").
Proof. by apply (history_line_truncates 2 _ (Some "tool") "done"). Defined.

Lemma history_line_returns i entry type text :
  entry !! "type" = Some type → entry !! "content" = Some (Some text) →
  ∃ line, history_line i entry = inr line.
Proof. intros Htype Hcontent. unfold history_line. rewrite Htype, Hcontent. by eexists. Qed.

Lemma history_lines_well_formed i history :
  Forall well_formed_entry history →
  ∃ lines, history_lines i history = inr lines ∧ length lines = length history.
Proof.
  intros Hwf. revert i. induction Hwf as [|entry history Hentry _ IH]; intros i; simpl.
  { by exists []. }
  destruct Hentry as [_ (text & Hcontent & Htype)].
  assert (∃ type, entry !! "type" = Some type) as [type Htype'].
  { destruct Htype as [[? _]|[[? _]|[? _]]]; by eexists. }
  destruct (history_line_returns i entry type text Htype' Hcontent) as [line ->].
  destruct (IH (S i)) as (lines & -> & Hlen).
  eexists. split; [done|]. simpl. by rewrite Hlen.
Qed.

(** X17. print_history can print the history of every thread: no entry that
    get_conversation_history produces lacks a key it reads.  It prints one
    line when the thread shows nothing, else two header lines and one line
    for each visible message, and it changes nothing. *)
Theorem print_history_prints_every_thread (thread_id : string) (p : Process) :
  let shown :=
    filter (λ msg, visible msg = true) (thread_messages (agent p) thread_id) in
  ∃ lines,
    print_history thread_id p = (inr lines, p)
    ∧ (shown = [] → lines = ["No conversation history found."])
    ∧ (shown ≠ [] → length lines = 2 + length shown).
Proof.
  intros shown. unfold print_history, in_agent, mbind, IO_bind.
  rewrite get_conversation_history_reads.
  assert (set_agent (agent p) p = p) as -> by by destruct p.
  destruct (history_of_filter_visible (thread_messages (agent p) thread_id))
    as [_ Hlength].
  fold shown in Hlength.
  destruct (history_lines_well_formed 1 (history_of (thread_messages (agent p) thread_id)))
    as (lines & Hlines & Hlen).
  { rewrite history_of_concat. apply Forall_concat, Forall_fmap, Forall_forall.
    intros msg _. apply history_entry_well_formed. }
  destruct (history_of (thread_messages (agent p) thread_id)) as [|entry history] eqn:Hhistory.
  - simpl. eexists. split; [done|]. split; [done|].
    intros Hshown. destruct shown; [done|discriminate Hlength].
  - simpl negb. cbv iota. rewrite Hlines. unfold raise_or_return. simpl.
    eexists. split; [reflexivity|]. split.
    + intros Hshown. rewrite Hshown in Hlength. discriminate Hlength.
    + intros _. simpl. rewrite Hlen. simpl in *. lia.
Qed.

End Text.

Lemma command_cases (x : string) :
  x ∈ ["quit"; "exit"; "help"; "history"; "clear"] →
  x ∈ ["quit"; "exit"] ∨ x = "help" ∨ x = "history" ∨ x = "clear".
Proof. rewrite !elem_of_cons, !elem_of_nil. tauto. Qed.

Lemma not_command_cases (x : string) :
  (x ∉ ["quit"; "exit"; "help"; "history"; "clear"]) →
  (x ∉ ["quit"; "exit"]) ∧ x ≠ "help" ∧ x ≠ "history" ∧ x ≠ "clear".
Proof. rewrite !elem_of_cons, !elem_of_nil. tauto. Qed.

Section Loop.

Variable strip lower : string → string.
Variable llm_with_tools : nat → list BaseMessage → exc + (string * option (list ToolCall)).
Variable tool_node : nat → AgentState → exc + list BaseMessage.
Variable recursion_limit : nat.
Variable GraphRecursionError : exc.

Local Abbreviation iteration :=
  (iteration strip lower llm_with_tools tool_node recursion_limit GraphRecursionError).
Local Abbreviation main_loop :=
  (main_loop strip lower llm_with_tools tool_node recursion_limit GraphRecursionError).
Local Abbreviation process_request :=
  (Agent.process_request llm_with_tools tool_node recursion_limit GraphRecursionError).

Lemma print_history_returns thread_id p :
  ∃ lines, print_history thread_id p = (inr lines, p).
Proof.
  unfold print_history, in_agent, mbind, IO_bind.
  rewrite get_conversation_history_reads.
  assert (set_agent (agent p) p = p) as -> by by destruct p.
  destruct (history_lines_well_formed 1 (history_of (thread_messages (agent p) thread_id)))
    as (lines & Hlines & _).
  { rewrite history_of_concat. apply Forall_concat, Forall_fmap, Forall_forall.
    intros msg _. apply history_entry_well_formed. }
  destruct (history_of (thread_messages (agent p) thread_id)); simpl; [by eexists|].
  simpl in Hlines. rewrite Hlines. by eexists.
Qed.

(** The pass of the loop that reads the line [line], by cases on what the
    line is read as. *)
Lemma iteration_line thread_id p line rest :
  stdin p = Line line :: rest →
  let user_input := strip line in
  iteration thread_id p =
    if negb (truthy_str user_input) then (inr (Some thread_id), set_stdin rest p)
    else if bool_decide (lower user_input ∈ ["quit"; "exit"])
    then (inr None, set_stdin rest p)
    else if bool_decide (lower user_input = "help")
    then (inr (Some thread_id), set_stdin rest p)
    else if bool_decide (lower user_input = "history")
    then (inr (Some thread_id), set_stdin rest p)
    else if bool_decide (lower user_input = "clear")
    then (inr (Some ("session_" +:+ PyText.str_of_nat (PyText.len thread_id))),
          set_stdin rest p)
    else match rest with
         | [] => (inr (Some thread_id), set_stdin rest p)
         | CtrlC :: rest' => (inr None, set_stdin rest' p)
         | Line uri :: rest' =>
             let video_uri := if negb (truthy_str (strip uri)) then demo_video else strip uri in
             (inr (Some thread_id),
              set_agent (process_request user_input (Some video_uri) thread_id (agent p)).2
                (set_stdin rest' p))
         end.
Proof.
  intros Hstdin user_input.
  unfold iteration, Main.iteration, except_Exception, except_KeyboardInterrupt.
  unfold mbind at 1, IO_bind at 1, input at 1. rewrite Hstdin. fold user_input.
  destruct (truthy_str user_input); simpl; [|done].
  destruct (bool_decide (lower user_input ∈ ["quit"; "exit"])); [done|].
  destruct (bool_decide (lower user_input = "help")); [done|].
  destruct (bool_decide (lower user_input = "history")).
  { unfold mbind, IO_bind.
    destruct (print_history_returns thread_id (set_stdin rest p)) as [lines ->]. done. }
  destruct (bool_decide (lower user_input = "clear")); [done|].
  unfold mbind at 1, IO_bind at 1, input at 1. simpl.
  destruct rest as [|[uri|] rest']; [done| |done].
  unfold mbind, IO_bind, in_agent. simpl.
  destruct (Agent.process_request _ _ _ _ _ _ _ _) as [[e|response] w']; done.
Qed.

(** X18. At the end of the input the loop of main never ends: input raises
    EOFError, which the loop catches as any Exception and goes on, with the
    same thread and nothing changed, however many passes it is given. *)
Theorem main_loop_spins_at_end_of_input (fuel : nat) (thread_id : string) (p : Process) :
  stdin p = [] →
  iteration thread_id p = (inr (Some thread_id), p)
  ∧ main_loop fuel thread_id p = None.
Proof.
  intros Hstdin.
  assert (iteration thread_id p = (inr (Some thread_id), p)) as Hpass.
  { unfold iteration, Main.iteration, except_Exception, except_KeyboardInterrupt.
    unfold mbind, IO_bind, input. by rewrite Hstdin. }
  split; [done|].
  induction fuel as [|fuel IH]; simpl; [done|]. by rewrite Hpass.
Qed.


(** X19. The commands of the loop never reach the agent: an empty line, "quit",
    "exit", "help", "history" and "clear" use up one line of input and leave
    the agent's memory and the environment as they were.  The loop is left
    for "quit" and "exit" only. *)
Theorem commands_leave_agent_alone (thread_id : string) (p : Process)
    (line : string) (rest : list input_event) :
  stdin p = Line line :: rest →
  strip line = "" ∨ lower (strip line) ∈ ["quit"; "exit"; "help"; "history"; "clear"] →
  ∃ next,
    iteration thread_id p = (inr next, set_stdin rest p)
    ∧ (next = None ↔ strip line ≠ "" ∧ lower (strip line) ∈ ["quit"; "exit"]).
Proof.
  intros Hstdin Hcommand. rewrite (iteration_line thread_id p line rest Hstdin).
  destruct (strip line) as [|c s] eqn:Hline; simpl.
  { eexists. split; [done|]. split; [done|]. by intros [? _]. }
  destruct Hcommand as [?|Hcommand]; [done|].
  case_bool_decide as Hquit.
  { eexists. split; [done|]. by split. }
  case_bool_decide as Hhelp.
  { eexists. split; [done|]. split; [done|]. by intros [_ ?]. }
  case_bool_decide as Hhistory.
  { eexists. split; [done|]. split; [done|]. by intros [_ ?]. }
  case_bool_decide as Hclear.
  { eexists. split; [done|]. split; [done|]. by intros [_ ?]. }
  by destruct (command_cases _ Hcommand) as [?|[?|[?|?]]].
Qed.

(** X20. A line that is no command is a request.  It goes to the agent under the
    current thread with the stripped text, and with the demo video when the
    line entered for the URI is blank.  Whether the request succeeds or not,
    the loop goes on with the same thread. *)
Theorem request_goes_to_agent (thread_id : string) (p : Process)
    (line uri : string) (rest : list input_event) :
  stdin p = Line line :: Line uri :: rest →
  strip line ≠ "" →
  lower (strip line) ∉ ["quit"; "exit"; "help"; "history"; "clear"] →
  let video_uri := if decide (strip uri = "") then demo_video else strip uri in
  iteration thread_id p =
    ( inr (Some thread_id),
      set_agent (process_request (strip line) (Some video_uri) thread_id (agent p)).2
        (set_stdin rest p) ).
Proof.
  intros Hstdin Hline Hcommand video_uri.
  rewrite (iteration_line thread_id p line (Line uri :: rest) Hstdin).
  destruct (strip line) as [|c s] eqn:Hstrip; [done|]. simpl.
  destruct (not_command_cases _ Hcommand) as (Hquit & Hhelp & Hhistory & Hclear).
  rewrite !bool_decide_eq_false_2 by done.
  unfold video_uri. by destruct (strip uri).
Qed.

Lemma iteration_clear thread_id p event rest :
  stdin p = event :: rest →
  reads_as strip lower "clear" event →
  iteration thread_id p =
    (inr (Some ("session_" +:+ PyText.str_of_nat (PyText.len thread_id))), set_stdin rest p).
Proof.
  intros Hstdin (line & -> & Hline & Hclear).
  rewrite (iteration_line thread_id p line rest Hstdin).
  destruct (strip line) as [|c s] eqn:Hstrip; [done|]. simpl.
  rewrite Hclear. done.
Qed.

Lemma main_loop_clears clears rest fuel thread_id p :
  stdin p = clears ++ rest →
  Forall (reads_as strip lower "clear") clears →
  main_loop (length clears + fuel) thread_id p
  = main_loop fuel
      (Nat.iter (length clears)
         (λ t, "session_" +:+ PyText.str_of_nat (PyText.len t)) thread_id)
      (set_stdin rest p).
Proof.
  intros Hstdin Hclears. revert thread_id p Hstdin.
  induction Hclears as [|event clears Hevent _ IH]; intros thread_id p Hstdin; simpl.
  { simpl in Hstdin. rewrite <-Hstdin. by destruct p. }
  rewrite (iteration_clear thread_id p event (clears ++ rest) Hstdin Hevent).
  rewrite (IH _ (set_stdin (clears ++ rest) p) eq_refl).
  f_equal. symmetry.
  apply (Nat.iter_succ_r _ (λ t, "session_" +:+ PyText.str_of_nat (PyText.len t))).
Qed.

(** X21. The command "clear" stops starting fresh threads.  From the session
    "main_session", two or more "clear" commands in a row all end in the
    thread "session_10": from the third "clear" on the conversation goes on
    in the same thread. *)
Theorem clear_stops_clearing (clears rest : list input_event) (fuel : nat) (p : Process) :
  stdin p = clears ++ rest →
  Forall (reads_as strip lower "clear") clears →
  2 ≤ length clears →
  main_loop (length clears + fuel) "main_session" p
  = main_loop fuel "session_10" (set_stdin rest p).
Proof.
  intros Hstdin Hclears Hlength.
  rewrite (main_loop_clears clears rest fuel "main_session" p Hstdin Hclears). f_equal.
  destruct (length clears) as [|[|n]]; [lia..|]. clear.
  induction n as [|n IH]; [done|].
  rewrite Nat.iter_succ, IH. done.
Qed.

(** ** Before the loop *)

Local Abbreviation get_openai_api_key := (get_openai_api_key strip).
Local Abbreviation get_langsmith_config := (get_langsmith_config strip lower).
Local Abbreviation startup := (startup strip lower).

Lemma set_environ_same p : set_environ (environ p) p = p.
Proof. by destruct p. Qed.

Lemma get_openai_api_key_unfold p :
  get_openai_api_key p =
    match environ p !! "OPENAI_API_KEY" with
    | Some (String c key) => (inr (String c key), p)
    | _ =>
        match stdin p with
        | [] => (inl EOFError, p)
        | CtrlC :: rest => (inl KeyboardInterrupt, set_stdin rest p)
        | Line line :: rest =>
            match strip line with
            | EmptyString => (inl (SystemExit 1), set_stdin rest p)
            | key => (inr key, set_stdin rest p)
            end
        end
    end.
Proof.
  unfold get_openai_api_key, Main.get_openai_api_key, in_environ, getenv.
  unfold mbind at 1, IO_bind at 1. simpl. rewrite set_environ_same.
  destruct (environ p !! "OPENAI_API_KEY") as [[|c key]|]; simpl; try done;
    unfold mbind, IO_bind, input;
    (destruct (stdin p) as [|[line|] rest]; [done| |done]);
    by destruct (strip line).
Qed.

Lemma get_langsmith_config_unfold p :
  let project := default "video-editing-agent" (environ p !! "LANGSMITH_PROJECT") in
  get_langsmith_config p =
    match environ p !! "LANGSMITH_API_KEY" with
    | Some (String c key) => (inr (Some (String c key), project), p)
    | _ =>
        match stdin p with
        | [] => (inl EOFError, p)
        | CtrlC :: rest => (inl KeyboardInterrupt, set_stdin rest p)
        | Line answer :: rest =>
            if bool_decide (lower (strip answer) ∈ ["y"; "yes"])
            then
              match rest with
              | [] => (inl EOFError, set_stdin rest p)
              | CtrlC :: rest' => (inl KeyboardInterrupt, set_stdin rest' p)
              | Line key :: rest' =>
                  match strip key with
                  | EmptyString => (inr (None, project), set_stdin rest' p)
                  | api_key =>
                      match rest' with
                      | [] => (inl EOFError, set_stdin rest' p)
                      | CtrlC :: rest'' => (inl KeyboardInterrupt, set_stdin rest'' p)
                      | Line custom :: rest'' =>
                          match strip custom with
                          | EmptyString => (inr (Some api_key, project), set_stdin rest'' p)
                          | custom_project =>
                              (inr (Some api_key, custom_project), set_stdin rest'' p)
                          end
                      end
                  end
              end
            else (inr (None, project), set_stdin rest p)
        end
    end.
Proof.
  intros project.
  unfold get_langsmith_config, Main.get_langsmith_config, in_environ, getenv, getenv_default.
  unfold mbind at 1, IO_bind at 1. simpl. rewrite set_environ_same.
  unfold mbind at 1, IO_bind at 1. simpl. rewrite set_environ_same. fold project.
  assert (∀ key : option string,
            (if negb (truthy key) then true else false)
            = match key with Some (String _ _) => false | _ => true end) as Htruthy
    by (by intros [[|??]|]).
  destruct (environ p !! "LANGSMITH_API_KEY") as [[|c key]|]; simpl; try done;
    unfold mbind at 1, IO_bind at 1, input at 1;
    (destruct (stdin p) as [|[answer|] rest]; [done| |done]);
    (destruct (bool_decide (lower (strip answer) ∈ ["y"; "yes"])); [|done]);
    unfold mbind at 1, IO_bind at 1, input at 1; simpl;
    (destruct rest as [|[key'|] rest']; [done| |done]); simpl;
    (destruct (strip key') as [|c' api_key]; [done|]); simpl;
    unfold mbind at 1, IO_bind at 1, input at 1; simpl;
    (destruct rest' as [|[custom|] rest'']; [done| |done]); simpl;
    by destruct (strip custom).
Qed.

(** X22. get_openai_api_key never returns an empty key.  With a non-empty
    OPENAI_API_KEY it returns that key and reads nothing.  Otherwise it reads
    one line, which is consumed: it exits with code 1 when that line is blank
    after stripping, and returns the stripped line when it is not; Ctrl-C at
    the prompt is a KeyboardInterrupt and the end of the input an EOFError.
    It changes neither the environment nor the agent. *)
Theorem get_openai_api_key_never_empty (p : Process) :
  let result := get_openai_api_key p in
  let env_key := environ p !! "OPENAI_API_KEY" in
  environ result.2 = environ p ∧ agent result.2 = agent p
  ∧ (∀ key, result.1 = inr key → key ≠ "")
  ∧ (truthy env_key = true → result = (inr (default "" env_key), p))
  ∧ (truthy env_key = false →
     match stdin p with
     | [] => result = (inl EOFError, p)
     | CtrlC :: rest => result = (inl KeyboardInterrupt, set_stdin rest p)
     | Line line :: rest =>
         result = ( if bool_decide (strip line = "") then inl (SystemExit 1)
                    else inr (strip line),
                    set_stdin rest p )
     end).
Proof.
  intros result env_key. unfold result, env_key. rewrite get_openai_api_key_unfold.
  destruct (environ p !! "OPENAI_API_KEY") as [[|c key]|]; simpl;
    try (repeat split; [by intros ? [= <-]|done..]);
    (destruct (stdin p) as [|[line|] rest];
      [repeat split; done| |repeat split; done]);
    (destruct (strip line) as [|c' key'] eqn:Hline; simpl;
      repeat split; try done; by intros ? [= <-]).
Qed.

(** X23. get_langsmith_config returns no key or a non-empty one, never an empty
    string, and never exits.  With a non-empty LANGSMITH_API_KEY it reads
    nothing and returns that key with LANGSMITH_PROJECT or the default
    project.  Otherwise it asks: an answer other than "y" or "yes" gives no
    key; after "y" or "yes" a blank key gives no key, and a non-blank key is
    returned with the custom project when that line is not blank, else with
    LANGSMITH_PROJECT or the default.  Every line read is consumed; Ctrl-C at
    any of the prompts is a KeyboardInterrupt and the end of the input an
    EOFError.  It changes neither the environment nor the agent. *)
Theorem get_langsmith_config_key (p : Process) :
  let result := get_langsmith_config p in
  let env_key := environ p !! "LANGSMITH_API_KEY" in
  let project := default "video-editing-agent" (environ p !! "LANGSMITH_PROJECT") in
  environ result.2 = environ p ∧ agent result.2 = agent p
  ∧ (∀ key project', result.1 = inr (key, project') → key = None ∨ truthy key = true)
  ∧ (∀ s, result.1 = inl s → s = EOFError ∨ s = KeyboardInterrupt)
  ∧ (truthy env_key = true → result = (inr (env_key, project), p))
  ∧ (truthy env_key = false →
     match stdin p with
     | [] => result = (inl EOFError, p)
     | CtrlC :: rest => result = (inl KeyboardInterrupt, set_stdin rest p)
     | Line answer :: rest =>
         if bool_decide (lower (strip answer) ∈ ["y"; "yes"])
         then
           match rest with
           | [] => result = (inl EOFError, set_stdin [] p)
           | CtrlC :: rest' => result = (inl KeyboardInterrupt, set_stdin rest' p)
           | Line key :: rest' =>
               if bool_decide (strip key = "")
               then result = (inr (None, project), set_stdin rest' p)
               else
                 match rest' with
                 | [] => result = (inl EOFError, set_stdin [] p)
                 | CtrlC :: rest'' => result = (inl KeyboardInterrupt, set_stdin rest'' p)
                 | Line custom :: rest'' =>
                     result = ( inr (Some (strip key),
                                     if bool_decide (strip custom = "") then project
                                     else strip custom),
                                set_stdin rest'' p )
                 end
           end
         else result = (inr (None, project), set_stdin rest p)
     end).
Proof.
  intros result env_key project. unfold result, env_key.
  rewrite get_langsmith_config_unfold. fold project.
  destruct (environ p !! "LANGSMITH_API_KEY") as [[|c key]|]; simpl;
    repeat match goal with
           | |- context [bool_decide (_ ∈ _)] =>
               destruct (bool_decide (_ ∈ _))
           | |- context [match stdin p with _ => _ end] =>
               destruct (stdin p) as [|[?|] ?]
           | |- context [match strip ?x with _ => _ end] => destruct (strip x)
           | |- context [match ?l with [] => _ | _ => _ end] =>
               is_var l; destruct l as [|[?|] ?]
           end; simpl;
    (split; [done|]); (split; [done|]);
    (split; [intros ? ? [= <- <-]; by (left + right)|]);
    (split; [try (intros ? [= <-]; by (left + right)); done|]);
    (split; done).
Qed.

Lemma get_openai_api_key_cases p :
  (∃ key p', get_openai_api_key p = (inr key, p') ∧ key ≠ "")
  ∨ (∃ p', get_openai_api_key p = (inl EOFError, p'))
  ∨ (∃ p', get_openai_api_key p = (inl KeyboardInterrupt, p'))
  ∨ (∃ p' line rest,
       get_openai_api_key p = (inl (SystemExit 1), p')
       ∧ truthy (environ p !! "OPENAI_API_KEY") = false
       ∧ stdin p = Line line :: rest ∧ strip line = "").
Proof.
  rewrite get_openai_api_key_unfold.
  destruct (environ p !! "OPENAI_API_KEY") as [[|c key]|]; simpl;
    try (left; by eexists _, _);
    (destruct (stdin p) as [|[line|] rest];
      [right; left; by eexists| |right; right; left; by eexists]);
    (destruct (strip line) eqn:Hline;
      [right; right; right; by eexists _, _, _|left; by eexists _, _]).
Qed.

Lemma get_langsmith_config_cases p :
  (∃ key project p', get_langsmith_config p = (inr (key, project), p'))
  ∨ (∃ p', get_langsmith_config p = (inl EOFError, p'))
  ∨ (∃ p', get_langsmith_config p = (inl KeyboardInterrupt, p')).
Proof.
  rewrite get_langsmith_config_unfold.
  destruct (environ p !! "LANGSMITH_API_KEY") as [[|c key]|]; simpl;
    repeat match goal with
           | |- context [bool_decide ?P] => destruct (bool_decide P)
           | |- context [match stdin p with _ => _ end] =>
               destruct (stdin p) as [|[?|] ?]
           | |- context [match strip ?x with _ => _ end] => destruct (strip x)
           | |- context [match ?l with [] => _ | _ => _ end] =>
               is_var l; destruct l as [|[?|] ?]
           end; simpl; naive_solver.
Qed.

Lemma get_openai_api_key_returns p key p1 :
  get_openai_api_key p = (inr key, p1) → key ≠ "" ∧ environ p1 = environ p.
Proof.
  rewrite get_openai_api_key_unfold.
  destruct (environ p !! "OPENAI_API_KEY") as [[|c k]|]; simpl;
    try (by intros [= <- <-]);
    (destruct (stdin p) as [|[line|] rest]; [done| |done]);
    (destruct (strip line); [done|]); by intros [= <- <-].
Qed.

(** What [get_langsmith_config] returns: no key, and then none in the
    environment either, or a non-empty one; a non-empty project, or the one
    the environment gives. *)
Lemma get_langsmith_config_returns p tracing_key project p2 :
  get_langsmith_config p = (inr (tracing_key, project), p2) →
  environ p2 = environ p
  ∧ (tracing_key = None ∧ truthy (environ p !! "LANGSMITH_API_KEY") = false
     ∨ truthy tracing_key = true)
  ∧ (project ≠ ""
     ∨ project = default "video-editing-agent" (environ p !! "LANGSMITH_PROJECT")).
Proof.
  rewrite get_langsmith_config_unfold.
  destruct (environ p !! "LANGSMITH_API_KEY") as [[|c key]|]; simpl;
    repeat match goal with
           | |- context [bool_decide ?P] => destruct (bool_decide P)
           | |- context [match stdin p with _ => _ end] =>
               destruct (stdin p) as [|[?|] ?]
           | |- context [match strip ?x with _ => _ end] => destruct (strip x)
           | |- context [match ?l with [] => _ | _ => _ end] =>
               is_var l; destruct l as [|[?|] ?]
           end; simpl; try done;
    intros [= <- <- <-]; (split; [done|]); split; (by left) || (by right) || idtac;
    (left; by split) || (by right).
Qed.

(** [startup] by the outcomes of the two functions it calls. *)
Lemma startup_unfold p :
  startup p =
    match get_openai_api_key p with
    | (inl KeyboardInterrupt, p') => (inl (SystemExit 0), p')
    | (inl s, p') => (inl s, p')
    | (inr key, p1) =>
        match get_langsmith_config p1 with
        | (inl KeyboardInterrupt, p') => (inl (SystemExit 0), p')
        | (inl s, p') => (inl s, p')
        | (inr (tracing_key, project), p2) =>
            match __init__ (Some key) tracing_key (Some project) (environ p2) with
            | (inr new_agent, environ') =>
                ( inr new_agent,
                  set_agent (set_memory (λ _, agent_memory new_agent) (agent p2))
                    (set_environ environ' p2) )
            | (inl e, environ') => (inl (SystemExit 1), set_environ environ' p2)
            end
        end
    end.
Proof.
  unfold startup, Main.startup.
  unfold mbind at 1, IO_bind at 1, except_KeyboardInterrupt at 1.
  unfold mbind at 1, IO_bind at 1.
  destruct (get_openai_api_key p) as [[[e| |code]|key] p1]; try done.
  unfold mbind at 1, IO_bind at 1.
  destruct (get_langsmith_config p1) as [[[e| |code]|[tracing_key project]] p2]; try done.
  simpl. unfold except_Exception, create_video_editing_agent, in_environ.
  unfold mbind at 1, IO_bind at 1.
  by destruct (__init__ (Some key) tracing_key (Some project) (environ p2)) as [[e|a] e'].
Qed.

(** X24. main reaches its loop with an agent whose key is non-empty, whose memory
    is empty and which has the twenty tools.  It exits with code 1 only when
    no key is set and the user enters a blank one: the agent is never refused
    for want of a key.  Ctrl-C at a prompt, of get_openai_api_key or of
    get_langsmith_config, exits with code 0, and the end of the input at a
    prompt is an EOFError that main does not catch; the exit with code 1 of
    get_openai_api_key goes through.  When both functions return, main has
    the agent that __init__ makes of their results, with the key entered or
    found, and the environment is the one __init__ leaves. *)
Theorem startup_outcome (p : Process) :
  match (startup p).1 with
  | inr new_agent =>
      truthy (openai_api_key new_agent) = true
      ∧ memory (agent (startup p).2) = ∅
      ∧ length (agent_tools new_agent) = 20
  | inl (SystemExit code) =>
      code = 0%Z
      ∨ (code = 1%Z
         ∧ truthy (environ p !! "OPENAI_API_KEY") = false
         ∧ ∃ line rest, stdin p = Line line :: rest ∧ strip line = "")
  | inl (Exception e) => Exception e = EOFError
  | inl KeyboardInterrupt => False
  end
  ∧ (∀ p', get_openai_api_key p = (inl KeyboardInterrupt, p') →
       startup p = (inl (SystemExit 0), p'))
  ∧ (∀ key p1 p', get_openai_api_key p = (inr key, p1) →
       get_langsmith_config p1 = (inl KeyboardInterrupt, p') →
       startup p = (inl (SystemExit 0), p'))
  ∧ (∀ p', get_openai_api_key p = (inl EOFError, p') → startup p = (inl EOFError, p'))
  ∧ (∀ key p1 p', get_openai_api_key p = (inr key, p1) →
       get_langsmith_config p1 = (inl EOFError, p') →
       startup p = (inl EOFError, p'))
  ∧ (∀ p', get_openai_api_key p = (inl (SystemExit 1), p') →
       startup p = (inl (SystemExit 1), p'))
  ∧ (∀ key tracing_key project p1 p2,
       get_openai_api_key p = (inr key, p1) →
       get_langsmith_config p1 = (inr (tracing_key, project), p2) →
       ∃ new_agent environ',
         __init__ (Some key) tracing_key (Some project) (environ p2)
           = (inr new_agent, environ')
         ∧ startup p = ( inr new_agent,
                         set_agent (set_memory (λ _, ∅) (agent p2))
                           (set_environ environ' p2) )
         ∧ openai_api_key new_agent = Some key
         ∧ truthy (Init.langsmith_api_key new_agent) = truthy tracing_key
         ∧ Init.langsmith_project new_agent = Some project
         ∧ (truthy tracing_key = false → environ' = environ p))
  ∧ (truthy (environ p !! "OPENAI_API_KEY") = false →
     match stdin p with
     | [] => startup p = (inl EOFError, p)
     | CtrlC :: rest => startup p = (inl (SystemExit 0), set_stdin rest p)
     | Line line :: rest =>
         strip line = "" → startup p = (inl (SystemExit 1), set_stdin rest p)
     end)
  ∧ (truthy (environ p !! "OPENAI_API_KEY") = true →
     truthy (environ p !! "LANGSMITH_API_KEY") = false →
     (stdin p = [] → startup p = (inl EOFError, p))
     ∧ (∀ rest, stdin p = CtrlC :: rest →
          startup p = (inl (SystemExit 0), set_stdin rest p))
     ∧ (∀ answer, stdin p = [Line answer] → lower (strip answer) ∈ ["y"; "yes"] →
          startup p = (inl EOFError, set_stdin [] p))
     ∧ (∀ answer rest, stdin p = Line answer :: CtrlC :: rest →
          lower (strip answer) ∈ ["y"; "yes"] →
          startup p = (inl (SystemExit 0), set_stdin rest p)))
  ∧ (truthy (environ p !! "OPENAI_API_KEY") = true →
     truthy (environ p !! "LANGSMITH_API_KEY") = true →
     ∃ new_agent,
       (startup p).1 = inr new_agent
       ∧ stdin (startup p).2 = stdin p
       ∧ openai_api_key new_agent = environ p !! "OPENAI_API_KEY"
       ∧ Init.langsmith_api_key new_agent = environ p !! "LANGSMITH_API_KEY"
       ∧ environ (startup p).2 !! "LANGCHAIN_TRACING_V2" = Some "true"
       ∧ environ (startup p).2 !! "LANGCHAIN_API_KEY" = environ p !! "LANGSMITH_API_KEY").
Proof.
  split.
  { destruct (startup p) as [result final] eqn:Hstart. simpl.
    unfold startup, Main.startup in Hstart.
    unfold mbind at 1, IO_bind at 1, except_KeyboardInterrupt at 1 in Hstart.
    unfold mbind at 1, IO_bind at 1 in Hstart.
    destruct (get_openai_api_key_cases p)
      as [(key & p1 & Hp & Hkey)|[[p1 Hp]|[[p1 Hp]|(p1 & line & rest & Hp & Hblank)]]];
      rewrite Hp in Hstart;
      [|by injection Hstart as <- <-|by injection Hstart as <- <-; left
       |injection Hstart as <- <-; right; destruct Hblank as (? & ? & ?);
        split; [done|]; split; [done|]; by eexists _, _].
    unfold mbind at 1, IO_bind at 1 in Hstart.
    destruct (get_langsmith_config_cases p1)
      as [(tracing_key & project & p2 & Hp1)|[[p2 Hp1]|[p2 Hp1]]];
      rewrite Hp1 in Hstart;
      [|by injection Hstart as <- <-|by injection Hstart as <- <-; left].
    simpl in Hstart.
    unfold except_Exception, create_video_editing_agent, in_environ in Hstart.
    unfold mbind at 1, IO_bind at 1 in Hstart. rewrite init_unfold in Hstart.
    destruct key as [|c key]; [done|]. simpl in Hstart.
    by injection Hstart as <- <-. }
  rewrite startup_unfold.
  split; [by intros p' ->|]. split; [by intros key p1 p' -> ->|].
  split; [by intros p' ->|]. split; [by intros key p1 p' -> ->|].
  split; [by intros p' ->|].
  split.
  { intros key tracing_key project p1 p2 Hkey Hconfig. rewrite Hkey, Hconfig.
    destruct (get_openai_api_key_returns _ _ _ Hkey) as [Hnonempty _].
    destruct (get_langsmith_config_returns _ _ _ _ Hconfig)
      as (Henviron2 & Htracing & Hproject).
    destruct (get_openai_api_key_returns _ _ _ Hkey) as [_ Henviron1].
    rewrite init_unfold.
    destruct key as [|c key]; [done|]. simpl.
    eexists _, _. split; [done|]. split; [done|]. split; [done|].
    rewrite Henviron2, Henviron1 in *.
    split; [|split].
    - unfold py_or. destruct Htracing as [(-> & Henv)|Htracing]; [|by rewrite Htracing].
      simpl. by rewrite Henv.
    - unfold py_or.
      destruct Hproject as [Hproject| ->].
      + destruct project; [done|]. done.
      + simpl. by destruct (default _ _).
    - intros Hfalse. unfold py_or.
      destruct Htracing as [(-> & Henv)|Htracing]; [|congruence].
      simpl. by rewrite Henv. }
  split.
  { intros Henv. rewrite get_openai_api_key_unfold.
    destruct (environ p !! "OPENAI_API_KEY") as [[|c key]|]; try done;
      (destruct (stdin p) as [|[line|] rest]; [done| |done]); by intros ->. }
  split.
  { intros Henv Htracing. rewrite get_openai_api_key_unfold.
    destruct (environ p !! "OPENAI_API_KEY") as [[|c key]|]; try done.
    rewrite get_langsmith_config_unfold.
    destruct (environ p !! "LANGSMITH_API_KEY") as [[|c' key']|]; try done;
      (split; [by intros ->|]); (split; [by intros rest ->|]);
      (split; [intros answer -> Hyes|intros answer rest -> Hyes]);
      by rewrite (bool_decide_eq_true_2 _ Hyes). }
  intros Henv Htracing. rewrite get_openai_api_key_unfold.
  destruct (environ p !! "OPENAI_API_KEY") as [[|c key]|]; try done.
  rewrite get_langsmith_config_unfold.
  destruct (environ p !! "LANGSMITH_API_KEY") as [[|c' key']|] eqn:Hkey'; try done.
  rewrite init_unfold. simpl. rewrite Hkey'. simpl.
  eexists. split; [done|]. split; [done|]. split; [done|]. split; [done|].
  split; by simplify_map_eq.
Qed.

End Loop.

Lemma main_loop_spins_at_end_of_input_witness :
  Main.main_loop Session.strip Session.lower Scenario.llm Scenario.tool_node
    Scenario.recursion_limit Scenario.GraphRecursionError
    1000 "main_session" (set_stdin [] Session.start) = None.
Proof.
  apply (main_loop_spins_at_end_of_input Session.strip Session.lower Scenario.llm
           Scenario.tool_node Scenario.recursion_limit Scenario.GraphRecursionError
           1000 "main_session" (set_stdin [] Session.start)).
  reflexivity.
Defined.


Lemma commands_leave_agent_alone_witness :
  ∃ next,
    Main.iteration Session.strip Session.lower Scenario.llm Scenario.tool_node
      Scenario.recursion_limit Scenario.GraphRecursionError "main_session"
      (set_stdin [Line " History "; Line "quit"] Session.start)
    = (inr next, set_stdin [Line "quit"]
                   (set_stdin [Line " History "; Line "quit"] Session.start))
    ∧ (next = None ↔ Session.strip " History " ≠ ""
                     ∧ Session.lower (Session.strip " History ") ∈ ["quit"; "exit"]).
Proof.
  apply (commands_leave_agent_alone Session.strip Session.lower Scenario.llm
           Scenario.tool_node Scenario.recursion_limit Scenario.GraphRecursionError
           "main_session" _ " History " [Line "quit"]); [reflexivity|].
  right. vm_compute. apply list_elem_of_In. simpl. tauto.
Defined.

Lemma request_goes_to_agent_witness :
  let p := set_stdin [Line "Trim it"; Line " "] Session.start in
  Main.iteration Session.strip Session.lower Scenario.llm Scenario.tool_node
    Scenario.recursion_limit Scenario.GraphRecursionError "main_session" p
  = ( inr (Some "main_session"),
      set_agent
        (Agent.process_request Scenario.llm Scenario.tool_node Scenario.recursion_limit
           Scenario.GraphRecursionError "Trim it" (Some demo_video) "main_session"
           (agent p)).2
        (set_stdin [] p) ).
Proof.
  intros p.
  apply (request_goes_to_agent Session.strip Session.lower Scenario.llm
           Scenario.tool_node Scenario.recursion_limit Scenario.GraphRecursionError
           "main_session" p "Trim it" " " []); [reflexivity|discriminate|].
  vm_compute. intros Hin%list_elem_of_In. simpl in Hin.
  repeat destruct Hin as [Hin|Hin]; done.
Defined.

Lemma clear_stops_clearing_witness :
  Main.main_loop Session.strip Session.lower Scenario.llm Scenario.tool_node
    Scenario.recursion_limit Scenario.GraphRecursionError
    (3 + 5) "main_session" (set_stdin [Line "clear"; Line "CLEAR"; Line " clear "] Session.start)
  = Main.main_loop Session.strip Session.lower Scenario.llm Scenario.tool_node
      Scenario.recursion_limit Scenario.GraphRecursionError
      5 "session_10"
      (set_stdin [] (set_stdin [Line "clear"; Line "CLEAR"; Line " clear "] Session.start)).
Proof.
  apply (clear_stops_clearing Session.strip Session.lower Scenario.llm
           Scenario.tool_node Scenario.recursion_limit Scenario.GraphRecursionError
           [Line "clear"; Line "CLEAR"; Line " clear "] [] 5
           (set_stdin [Line "clear"; Line "CLEAR"; Line " clear "] Session.start));
    [reflexivity| |simpl; lia].
  repeat constructor; eexists; (split; [reflexivity|]); split; done.
Defined.

(** * The tracing example *)

Section TracingExample.

Import LangsmithExample.

Implicit Types environ : gmap string string.

Lemma setup_langsmith_tracing_unfold environ :
  let traced :=
    <["LANGCHAIN_ENDPOINT" := "https://api.smith.langchain.com"]>
      (<["LANGCHAIN_TRACING_V2" := "true"]> environ) in
  let project := default "video-editing-agent" (environ !! "LANGSMITH_PROJECT") in
  setup_langsmith_tracing environ =
    match environ !! "LANGSMITH_API_KEY" with
    | Some (String c key) =>
        ( inr (Some (String c key), Some project),
          <["LANGCHAIN_PROJECT" := project]>
            (<["LANGCHAIN_API_KEY" := String c key]> traced) )
    | _ => (inr (None, None), traced)
    end.
Proof.
  intros traced project.
  unfold setup_langsmith_tracing, getenv, getenv_default, setenv, mbind, M_bind, bind.
  simpl. fold traced.
  assert (traced !! "LANGSMITH_API_KEY" = environ !! "LANGSMITH_API_KEY") as ->
    by (unfold traced; by rewrite !lookup_insert_ne).
  assert (traced !! "LANGSMITH_PROJECT" = environ !! "LANGSMITH_PROJECT") as ->
    by (unfold traced; by rewrite !lookup_insert_ne).
  fold project.
  by destruct (environ !! "LANGSMITH_API_KEY") as [[|c key]|].
Qed.

(** X25. setup_langsmith_tracing never raises.  It switches LANGCHAIN_TRACING_V2
    and LANGCHAIN_ENDPOINT on before it looks for a key, so they are set
    even when it reports that tracing cannot be set up and returns
    (None, None); it returns a key exactly when LANGSMITH_API_KEY is
    non-empty. *)
Theorem setup_langsmith_tracing_sets_first environ :
  ∃ key project environ',
    setup_langsmith_tracing environ = (inr (key, project), environ')
    ∧ environ' !! "LANGCHAIN_TRACING_V2" = Some "true"
    ∧ environ' !! "LANGCHAIN_ENDPOINT" = Some "https://api.smith.langchain.com"
    ∧ (truthy (environ !! "LANGSMITH_API_KEY") = false ↔ key = None)
    ∧ (key = None →
       project = None ∧ ∀ name, name ∉ ["LANGCHAIN_TRACING_V2"; "LANGCHAIN_ENDPOINT"] →
                                environ' !! name = environ !! name)
    ∧ (key ≠ None →
       key = environ !! "LANGSMITH_API_KEY"
       ∧ environ' !! "LANGCHAIN_API_KEY" = key
       ∧ environ' !! "LANGCHAIN_PROJECT" = project).
Proof.
  rewrite setup_langsmith_tracing_unfold.
  assert (∀ name : string,
            name ∉ ["LANGCHAIN_TRACING_V2"; "LANGCHAIN_ENDPOINT"] →
            name ≠ "LANGCHAIN_TRACING_V2" ∧ name ≠ "LANGCHAIN_ENDPOINT") as Hnames.
  { intros name. rewrite !elem_of_cons, elem_of_nil. tauto. }
  destruct (environ !! "LANGSMITH_API_KEY") as [[|c key]|]; simpl;
    eexists _, _, _; (split; [reflexivity|]);
    (split; [by simplify_map_eq|]); (split; [by simplify_map_eq|]);
    (split; [done|]); split; try done.
  - intros _. split; [done|]. intros name [??]%Hnames. by rewrite !lookup_insert_ne.
  - intros _. split; [done|]. split; by simplify_map_eq.
  - intros _. split; [done|]. intros name [??]%Hnames. by rewrite !lookup_insert_ne.
Qed.

(** X26. When the tracing example goes on to create its agent, __init__ finds
    the environment already as it would set it: creating the agent with the
    key and project that setup_langsmith_tracing returned changes no
    variable, and the agent gets that key and project. *)
Theorem traced_agent_keeps_environment environ agent environ' :
  traced_agent environ = (inr (Some agent), environ') →
  environ' = (setup_langsmith_tracing environ).2
  ∧ langsmith_api_key agent = environ !! "LANGSMITH_API_KEY"
  ∧ langsmith_project agent
    = Some (default "video-editing-agent" (environ !! "LANGSMITH_PROJECT"))
  ∧ openai_api_key agent = environ !! "OPENAI_API_KEY".
Proof.
  unfold traced_agent. unfold mbind at 1, M_bind at 1, bind at 1.
  rewrite setup_langsmith_tracing_unfold.
  destruct (environ !! "LANGSMITH_API_KEY") as [[|c key]|] eqn:Hkey; simpl; try done.
  unfold getenv. unfold mbind at 1, M_bind at 1, bind at 1. simpl.
  rewrite !lookup_insert_ne by done.
  destruct (environ !! "OPENAI_API_KEY") as [[|c' openai]|] eqn:Hopenai; simpl; try done.
  unfold create_video_editing_agent, mbind, M_bind, bind. rewrite init_unfold. simpl.
  set (project := default "video-editing-agent" (environ !! "LANGSMITH_PROJECT")).
  assert (py_or (Some project) (Some project) = Some project) as Hproject
    by (unfold py_or; by destruct (truthy _)).
  rewrite !lookup_insert_ne by done. fold project. rewrite Hproject.
  intros [= <- <-]. simpl. split; [|done].
  apply map_eq. intros name.
  destruct (decide (name = "LANGCHAIN_PROJECT")) as [->|?]; [by simplify_map_eq|].
  destruct (decide (name = "LANGCHAIN_API_KEY")) as [->|?]; [by simplify_map_eq|].
  destruct (decide (name = "LANGCHAIN_ENDPOINT")) as [->|?]; [by simplify_map_eq|].
  destruct (decide (name = "LANGCHAIN_TRACING_V2")) as [->|?]; by simplify_map_eq.
Qed.

End TracingExample.

Lemma traced_agent_keeps_environment_witness :
  let environ : gmap string string :=
    {[ "OPENAI_API_KEY" := "sk-1"; "LANGSMITH_API_KEY" := "ls-key" ]} in
  Some "ls-key" = environ !! "LANGSMITH_API_KEY".
Proof.
  intros environ.
  exact (proj1 (proj2 (traced_agent_keeps_environment environ _ _ eq_refl))).
Defined.
